(** * Schema migration orchestrator of aira-web (pkg/migration)

    A shallow embedding of [pkg/migration]: the manager
    ([MigrationManager.RunMigrations]), the two interfaces it depends on
    ([MigrationStorage], [LockProvider]) and their default backends
    ([DefaultDatabaseMigrationStorage], [RedisLockProvider]).

    Go code that threads effects through interface calls is written in a small
    state monad over an arbitrary state type [St]; interface values are records
    of monadic operations.  Calls are observed the way a Go test double would
    observe them: every interface and every registered function is wrapped in a
    recorder that appends one event per call to a trace. *)

From Stdlib Require Import ZArith NArith Lia Ascii.
From stdpp Require Import base option list strings gmap sorting.

Local Open Scope string_scope.

(** ** Go strings and the [strings] / [fmt] helpers the package calls *)

Module strings.

(** The byte 0x0A, written [\n] in the Go source. *)
Definition nl : string := String (Ascii.ascii_of_nat 10) EmptyString.

(** [strings.Join(elems, sep)]. *)
Fixpoint Join (elems : list string) (sep : string) : string :=
  match elems with
  | [] => EmptyString
  | [e] => e
  | e :: rest => e +:+ sep +:+ Join rest sep
  end.

(** Scanner behind [strings.Split]: [cur] is the piece being read and
    [skip] counts the bytes of a separator occurrence still to be passed. *)
Fixpoint splitFrom (sep : string) (skip : nat) (cur s : string) : list string :=
  match s with
  | EmptyString => [cur]
  | String c s' =>
      match skip with
      | S k => splitFrom sep k cur s'
      | O =>
          if String.prefix sep s
          then cur :: splitFrom sep (String.length sep - 1) EmptyString s'
          else splitFrom sep 0 (cur +:+ String c EmptyString) s'
      end
  end.

(** [strings.Split(s, sep)] for a non-empty separator (the package only
    splits on [":"]): the pieces between the non-overlapping occurrences of
    [sep], scanned from the left; one more piece than occurrences. *)
Definition Split (s sep : string) : list string := splitFrom sep 0 EmptyString s.

(** [strings.Contains(s, substr)]. *)
Fixpoint Contains (s substr : string) : bool :=
  String.prefix substr s
  || match s with
     | EmptyString => false
     | String _ s' => Contains s' substr
     end.

End strings.

(** ** Go errors

    [errorString] is an error made by [fmt.Errorf] without [%w] (or by a
    backend); [wrapError] is one made by [fmt.Errorf] with [%w]: it carries its
    full text and the error it wraps. *)

Inductive error : Type :=
| errorString (msg : string)
| wrapError (msg : string) (err : error).

(** [err.Error()]. *)
Definition Error (e : error) : string :=
  match e with
  | errorString msg => msg
  | wrapError msg _ => msg
  end.

(** [errors.Unwrap(err)]. *)
Definition Unwrap (e : error) : option error :=
  match e with
  | errorString _ => None
  | wrapError _ err => Some err
  end.

(** [fmt.Errorf(prefix + "%w", err)]. *)
Definition Errorf_w (prefix : string) (err : error) : error :=
  wrapError (prefix +:+ Error err) err.

(** ** The state monad the Go code runs in *)

Definition M (St A : Type) : Type := St -> A * St.

Definition ret {St A} (a : A) : M St A := fun st => (a, st).

Definition bind {St A B} (c : M St A) (k : A -> M St B) : M St B :=
  fun st => let (a, st') := c st in k a st'.

Definition gets {St A} (f : St -> A) : M St A := fun st => (f st, st).

Declare Scope go_scope.
Delimit Scope go_scope with go.
Notation "'let*' x ':=' c 'in' k" := (bind c (fun x => k))
  (at level 10, x name, c at level 100, k at level 200) : go_scope.
Notation "'let*' ' p ':=' c 'in' k" := (bind c (fun x => let 'p := x in k))
  (at level 10, p pattern, c at level 100, k at level 200) : go_scope.
Local Open Scope go_scope.

(** ** migrate.go: interfaces, execution context, registry *)

(** [fmt.Sprintf("%s:%s", namespace, name)]: the composite key. *)
Definition compositeKey (namespace name : string) : string :=
  namespace +:+ ":" +:+ name.

(** Go's [m[k]] on a [map[string]bool]: [false] when the key is absent. *)
Definition index (m : gmap string bool) (k : string) : bool :=
  default false (m !! k).

(** [type Migration struct { logStrings []string; storage MigrationStorage }].
    The unexported [storage] field is written once by [RunMigrations] and read
    nowhere in the package, so the context is its log lines. *)
Record Migration : Type := { logStrings : list string }.

(** [m.Log(format, args...)], given the line [fmt.Sprintf(format, args...)]. *)
Definition Log (m : Migration) (line : string) : Migration :=
  {| logStrings := logStrings m ++ [line] |}.

(** [m.LogString()]. *)
Definition LogString (m : Migration) : string :=
  strings.Join (logStrings m) strings.nl.

Section Interfaces.

Context {St : Type}.

(** [type MigrationStorage interface]. *)
Record MigrationStorage : Type := {
  GetAppliedMigrations : M St (list string * option error);
  MarkMigrationApplied : string -> string -> M St (option error);
  MarkMigrationFailed : string -> string -> string -> M St (option error);
  MarkMigrationSkipped : string -> string -> M St (option error)
}.

(** [type LockProvider interface]. *)
Record LockProvider : Type := {
  Lock : string -> Z -> M St (bool * option error);
  Unlock : string -> M St (option error)
}.

(** [type MigrationFunc func(m) error], [m] a pointer to a [Migration]: the
    function mutates the context it is handed and whatever part of the world
    it reaches. *)
Definition MigrationFunc : Type := Migration -> M St (Migration * option error).

(** [type MigrationItem struct]. *)
Record MigrationItem : Type := {
  Namespace : string;
  Name : string;
  Func : MigrationFunc
}.

(** [type MigrationManager struct]. *)
Record MigrationManager : Type := {
  storage : MigrationStorage;
  lockProvider : LockProvider;
  migrations : list MigrationItem
}.

Definition NewMigrationManager (s : MigrationStorage) (l : LockProvider)
  : MigrationManager :=
  {| storage := s; lockProvider := l; migrations := [] |}.

Definition Register (m : MigrationManager) (namespace name : string)
    (fn : MigrationFunc) : MigrationManager :=
  {| storage := storage m;
     lockProvider := lockProvider m;
     migrations := migrations m
                   ++ [ {| Namespace := namespace; Name := name; Func := fn |} ] |}.

(** *** RunMigrations *)

Definition lockKey : string := "migrate_lock".
Definition lockTimeout : Z := 60.

(** [time.Now().Format(time.RFC3339)] as read in the current state. *)
Variable nowRFC3339 : St -> string.

(** Lines 237-240: the applied set. *)
Definition appliedSetOf (appliedMigrations : list string) : gmap string bool :=
  foldl (fun acc name => <[name := true]> acc) ∅ appliedMigrations.

(** Lines 243-249: the namespaces that have records. *)
Definition namespaceHasRecordsOf (appliedMigrations : list string)
  : gmap string bool :=
  foldl (fun acc name =>
           match strings.Split name ":" with
           | [p0; _] => <[p0 := true]> acc
           | _ => acc
           end) ∅ appliedMigrations.

(** Lines 252-265: the bootstrap loop.  It returns the error that ends the
    run, if any, and the applied set as the loop leaves it. *)
Fixpoint bootstrapLoop (s : MigrationStorage) (items : list MigrationItem)
    (appliedSet namespaceHasRecords : gmap string bool)
  : M St (option error * gmap string bool) :=
  match items with
  | [] => ret (None, appliedSet)
  | item :: rest =>
      let key := compositeKey (Namespace item) (Name item) in
      if negb (index namespaceHasRecords (Namespace item))
         && negb (index appliedSet key)
      then
        let* err := MarkMigrationSkipped s (Namespace item) (Name item) in
        match err with
        | Some e =>
            ret (Some (Errorf_w ("failed to mark migration " +:+ key
                                 +:+ " as skipped: ") e), appliedSet)
        | None =>
            bootstrapLoop s rest (<[key := true]> appliedSet)
              (<[Namespace item := true]> namespaceHasRecords)
        end
      else bootstrapLoop s rest appliedSet namespaceHasRecords
  end.

Definition startMarker (namespace name time : string) : string :=
  "Starting migration: " +:+ namespace +:+ ":" +:+ name +:+ " at " +:+ time.

Definition completedMarker (namespace name time : string) : string :=
  "Migration completed: " +:+ namespace +:+ ":" +:+ name +:+ " at " +:+ time.

(** Line 282: the text handed to [MarkMigrationFailed]. *)
Definition failureText (err : error) (migration : Migration) : string :=
  "Migration failed: " +:+ Error err +:+ strings.nl +:+ "Logs:" +:+ strings.nl
  +:+ LogString migration.

(** Lines 268-293: the execution loop. *)
Fixpoint executeLoop (s : MigrationStorage) (items : list MigrationItem)
    (appliedSet : gmap string bool) : M St (option error) :=
  match items with
  | [] => ret None
  | item :: rest =>
      let key := compositeKey (Namespace item) (Name item) in
      if index appliedSet key then executeLoop s rest appliedSet
      else
        let* t0 := gets nowRFC3339 in
        let migration :=
          Log {| logStrings := [] |} (startMarker (Namespace item) (Name item) t0) in
        let* '(migration, err) := Func item migration in
        match err with
        | Some e =>
            let* _ := MarkMigrationFailed s (Namespace item) (Name item)
                   (failureText e migration) in
            ret (Some (Errorf_w ("migration " +:+ Namespace item +:+ ":"
                                 +:+ Name item +:+ " failed: ") e))
        | None =>
            let* t1 := gets nowRFC3339 in
            let migration :=
              Log migration (completedMarker (Namespace item) (Name item) t1) in
            let* err := MarkMigrationApplied s (Namespace item) (Name item) in
            match err with
            | Some e =>
                ret (Some (Errorf_w ("failed to mark migration "
                                     +:+ Namespace item +:+ ":" +:+ Name item
                                     +:+ " as applied: ") e))
            | None => executeLoop s rest appliedSet
            end
        end
  end.

(** Lines 232-295: what runs while the lock is held. *)
Definition runLocked (m : MigrationManager) : M St (option error) :=
  let* '(appliedMigrations, err) := GetAppliedMigrations (storage m) in
  match err with
  | Some e => ret (Some (Errorf_w "failed to get applied migrations: " e))
  | None =>
      let appliedSet := appliedSetOf appliedMigrations in
      let namespaceHasRecords := namespaceHasRecordsOf appliedMigrations in
      let* '(err, appliedSet) :=
        bootstrapLoop (storage m) (migrations m) appliedSet namespaceHasRecords in
      match err with
      | Some e => ret (Some e)
      | None => executeLoop (storage m) (migrations m) appliedSet
      end
  end.

(** [func (m *MigrationManager) RunMigrations() error].  The deferred
    [Unlock] runs when the function returns, whatever the return value, and
    its own result is dropped.  The [slog.Info] lines write to the process
    log only and are left out. *)
Definition RunMigrations (m : MigrationManager) : M St (option error) :=
  let* '(locked, err) := Lock (lockProvider m) lockKey lockTimeout in
  match err with
  | Some e => ret (Some (Errorf_w "failed to acquire migration lock: " e))
  | None =>
      if negb locked then ret (Some (errorString "migration is already running"))
      else
        let* r := runLocked m in
        let* _ := Unlock (lockProvider m) lockKey in
        ret r
  end.

End Interfaces.

Arguments MigrationStorage : clear implicits.
Arguments LockProvider : clear implicits.
Arguments MigrationFunc : clear implicits.
Arguments MigrationItem : clear implicits.
Arguments MigrationManager : clear implicits.

(** ** Recording the calls of a run

    That a run "calls markFailed", "invokes the function" or "calls unlock"
    is read off a trace.  The recorder wraps an interface value (or a
    registered function) so that each call appends one event holding the
    arguments and the results; the manager itself is run unchanged. *)

Inductive Event : Type :=
| CallLock (key : string) (seconds : Z) (locked : bool) (err : option error)
| CallUnlock (key : string) (err : option error)
| CallGetAppliedMigrations (names : list string) (err : option error)
| CallMarkMigrationApplied (namespace name : string) (err : option error)
| CallMarkMigrationFailed (namespace name errorMsg : string) (err : option error)
| CallMarkMigrationSkipped (namespace name : string) (err : option error)
| CallFunc (i : nat) (namespace name : string) (given left : Migration)
    (err : option error).

Section Recorder.

Context {St : Type}.

Definition record {A} (c : M St A) (ev : A -> Event) : M (St * list Event) A :=
  fun '(st, tr) => let (a, st') := c st in (a, (st', (tr ++ [ev a])%list)).

Definition recordStorage (s : MigrationStorage St)
  : MigrationStorage (St * list Event) :=
  {| GetAppliedMigrations :=
       record (GetAppliedMigrations s)
         (fun r => CallGetAppliedMigrations (fst r) (snd r));
     MarkMigrationApplied namespace name :=
       record (MarkMigrationApplied s namespace name)
         (CallMarkMigrationApplied namespace name);
     MarkMigrationFailed namespace name errorMsg :=
       record (MarkMigrationFailed s namespace name errorMsg)
         (CallMarkMigrationFailed namespace name errorMsg);
     MarkMigrationSkipped namespace name :=
       record (MarkMigrationSkipped s namespace name)
         (CallMarkMigrationSkipped namespace name) |}.

Definition recordLock (l : LockProvider St) : LockProvider (St * list Event) :=
  {| Lock key seconds :=
       record (Lock l key seconds)
         (fun r => CallLock key seconds (fst r) (snd r));
     Unlock key := record (Unlock l key) (CallUnlock key) |}.

(** The registration at position [i] of the registry. *)
Definition recordItem (i : nat) (item : MigrationItem St)
  : MigrationItem (St * list Event) :=
  {| Namespace := Namespace item;
     Name := Name item;
     Func migration :=
       record (Func item migration)
         (fun r => CallFunc i (Namespace item) (Name item) migration (fst r) (snd r)) |}.

Fixpoint recordItems (i : nat) (items : list (MigrationItem St))
  : list (MigrationItem (St * list Event)) :=
  match items with
  | [] => []
  | item :: rest => recordItem i item :: recordItems (S i) rest
  end.

Definition recordManager (m : MigrationManager St)
  : MigrationManager (St * list Event) :=
  {| storage := recordStorage (storage m);
     lockProvider := recordLock (lockProvider m);
     migrations := recordItems 0 (migrations m) |}.

Variable nowRFC3339 : St -> string.

(** One run from state [st] with every call recorded: the returned error,
    the state the run leaves, and the calls in order. *)
Definition observe (m : MigrationManager St) (st : St)
  : option error * St * list Event :=
  let '(r, (st', tr)) :=
    RunMigrations (fun s => nowRFC3339 (fst s)) (recordManager m) (st, []) in
  (r, st', tr).

End Recorder.

(** ** migration.go: the default backends

    The database and Redis are libraries outside the repository.  The world
    holds the rows of the migration log table, the keys of the Redis instance,
    the wall clock and the application's own data [App] that migrations act
    on.  Each database or Redis call may fail: [db_faults] and [redis_faults]
    script the outcome of the calls to come, one entry per call ([None]: the
    call goes through), and a call past the end of the script goes through. *)

Module MigrationLog.
(** [type MigrationLog struct]. *)
Record t : Type := {
  ID : N;
  Migration : string;
  Namespace : string;
  AppliedAt : Z;
  Logs : string;
  Success : bool
}.

Definition withID (id : N) (log : t) : t :=
  {| ID := id; Migration := Migration log; Namespace := Namespace log;
     AppliedAt := AppliedAt log; Logs := Logs log; Success := Success log |}.
End MigrationLog.

Section Backends.

Context {App : Type}.

Record World : Type := {
  migration_logs : list MigrationLog.t;
  db_faults : list (option error);
  redis_keys : gmap string string;
  redis_faults : list (option error);
  unixNow : Z;
  app : App
}.

Definition nextFault (script : list (option error))
  : option error * list (option error) :=
  match script with
  | [] => (None, [])
  | f :: rest => (f, rest)
  end.

Definition dbCall : M World (option error) :=
  fun w =>
    let (f, rest) := nextFault (db_faults w) in
    (f, {| migration_logs := migration_logs w; db_faults := rest;
           redis_keys := redis_keys w; redis_faults := redis_faults w;
           unixNow := unixNow w; app := app w |}).

Definition redisCall : M World (option error) :=
  fun w =>
    let (f, rest) := nextFault (redis_faults w) in
    (f, {| migration_logs := migration_logs w; db_faults := db_faults w;
           redis_keys := redis_keys w; redis_faults := rest;
           unixNow := unixNow w; app := app w |}).

Definition setRows (rows : list MigrationLog.t) : M World unit :=
  fun w =>
    (tt, {| migration_logs := rows; db_faults := db_faults w;
            redis_keys := redis_keys w; redis_faults := redis_faults w;
            unixNow := unixNow w; app := app w |}).

Definition setKeys (keys : gmap string string) : M World unit :=
  fun w =>
    (tt, {| migration_logs := migration_logs w; db_faults := db_faults w;
            redis_keys := keys; redis_faults := redis_faults w;
            unixNow := unixNow w; app := app w |}).

(** [database.Database().AutoMigrate(&MigrationLog{})]: provisions the
    table when it is missing; an absent table and an empty one are both the
    empty list of rows. *)
Definition AutoMigrate : M World (option error) := dbCall.

(** [database.Database().Where("success = ?", true).Find(&logs).Error]. *)
Definition FindSuccessful : M World (list MigrationLog.t * option error) :=
  let* err := dbCall in
  match err with
  | Some e => ret ([], Some e)
  | None =>
      let* rows := gets migration_logs in
      ret (List.filter MigrationLog.Success rows, None)
  end.

(** [database.Database().Create(&log).Error]: appends the row under the
    next primary key. *)
Definition Create (log : MigrationLog.t) : M World (option error) :=
  let* err := dbCall in
  match err with
  | Some e => ret (Some e)
  | None =>
      let* rows := gets migration_logs in
      let* _ := setRows (rows ++ [MigrationLog.withID
                                    (N.of_nat (length rows) + 1) log])%list in
      ret None
  end.

(** [type DefaultDatabaseMigrationStorage struct{}]. *)
Definition DefaultDatabaseMigrationStorage : MigrationStorage World :=
  {| GetAppliedMigrations :=
       let* err := AutoMigrate in
       match err with
       | Some e => ret ([], Some e)
       | None =>
           let* '(logs, err) := FindSuccessful in
           match err with
           | Some e => ret ([], Some e)
           | None =>
               ret (map (fun log => compositeKey (MigrationLog.Namespace log)
                                      (MigrationLog.Migration log)) logs,
                    None)
           end
       end;
     MarkMigrationApplied namespace name :=
       let* err := AutoMigrate in
       match err with
       | Some e => ret (Some e)
       | None =>
           let* now := gets unixNow in
           Create {| MigrationLog.ID := 0;
                     MigrationLog.Migration := name;
                     MigrationLog.Namespace := namespace;
                     MigrationLog.AppliedAt := now;
                     MigrationLog.Success := true;
                     MigrationLog.Logs := EmptyString |}
       end;
     MarkMigrationFailed namespace name errorMsg :=
       let* err := AutoMigrate in
       match err with
       | Some e => ret (Some e)
       | None =>
           let* now := gets unixNow in
           Create {| MigrationLog.ID := 0;
                     MigrationLog.Migration := name;
                     MigrationLog.Namespace := namespace;
                     MigrationLog.AppliedAt := now;
                     MigrationLog.Success := false;
                     MigrationLog.Logs := errorMsg |}
       end;
     MarkMigrationSkipped namespace name :=
       let* err := AutoMigrate in
       match err with
       | Some e => ret (Some e)
       | None =>
           let* now := gets unixNow in
           Create {| MigrationLog.ID := 0;
                     MigrationLog.Migration := name;
                     MigrationLog.Namespace := namespace;
                     MigrationLog.AppliedAt := now;
                     MigrationLog.Success := true;
                     MigrationLog.Logs := "skip" |}
       end |}.

(** [type RedisLockProvider struct{}].  [SetNX] sets the key only when it is
    absent; on a Redis error [result.Val()] is [false].  The expiry of the
    key after [seconds] is a matter of real time and is not modelled. *)
Definition RedisLockProvider : LockProvider World :=
  {| Lock key seconds :=
       let* err := redisCall in
       match err with
       | Some e => ret (false, Some e)
       | None =>
           let* keys := gets redis_keys in
           match keys !! key with
           | Some _ => ret (false, None)
           | None =>
               let* _ := setKeys (<[key := "locked"]> keys) in
               ret (true, None)
           end
       end;
     Unlock key :=
       let* err := redisCall in
       match err with
       | Some e => ret (Some e)
       | None =>
           let* keys := gets redis_keys in
           let* _ := setKeys (delete key keys) in
           ret None
       end |}.

(** [time.Now().Format(time.RFC3339)] is a function of the wall clock. *)
Variable formatRFC3339 : Z -> string.

(** [func init()]: the package-level manager over the default backends. *)
Definition migrationManager : MigrationManager World :=
  NewMigrationManager DefaultDatabaseMigrationStorage RedisLockProvider.

(** [AddMigrateWithNamespace] and [AddMigrate]. *)
Definition AddMigrateWithNamespace (m : MigrationManager World)
    (namespace name : string) (fn : MigrationFunc World) : MigrationManager World :=
  Register m namespace name fn.

Definition AddMigrate (m : MigrationManager World) (name : string)
    (fn : MigrationFunc World) : MigrationManager World :=
  AddMigrateWithNamespace m "app" name fn.

(** A run of the default manager over [items], recorded. *)
Definition observeDefault (items : list (MigrationItem World)) (w : World)
  : option error * World * list Event :=
  observe (fun w => formatRFC3339 (unixNow w))
    {| storage := DefaultDatabaseMigrationStorage;
       lockProvider := RedisLockProvider;
       migrations := items |} w.

End Backends.

Arguments World : clear implicits.

(** ** Reading a recorded run *)

Definition result {St} (run : option error * St * list Event) : option error :=
  fst (fst run).

Definition final {St} (run : option error * St * list Event) : St :=
  snd (fst run).

Definition trace {St} (run : option error * St * list Event) : list Event :=
  snd run.

Definition isFunc (ev : Event) : bool :=
  match ev with
  | CallFunc _ _ _ _ _ _ => true
  | _ => false
  end.

(** An invocation of the function registered under [namespace], [name]. *)
Definition isFuncOf (namespace name : string) (ev : Event) : bool :=
  match ev with
  | CallFunc _ ns n _ _ _ => String.eqb ns namespace && String.eqb n name
  | _ => false
  end.


Definition isMarkFailed (ev : Event) : bool :=
  match ev with
  | CallMarkMigrationFailed _ _ _ _ => true
  | _ => false
  end.

Definition isUnlock (ev : Event) : bool :=
  match ev with
  | CallUnlock _ _ => true
  | _ => false
  end.

Definition countWhere (p : Event -> bool) (tr : list Event) : nat :=
  length (List.filter p tr).

(** ** The calls a run can make

    The loops of [RunMigrations], read as the language of traces they can
    leave.  [BootTrace items a n evs r a'] : from applied set [a] and namespace
    flags [n] the bootstrap loop over [items] makes the calls [evs], ends with
    [r] and leaves the applied set [a'].  [ExecTrace i items a evs r] : the
    execution loop over [items], registered from position [i] on, makes the
    calls [evs] and returns [r]. *)

Section Traces.

Context {St : Type}.
Implicit Types (item : MigrationItem St) (a n : gmap string bool).

Definition keyOf item : string := compositeKey (Namespace item) (Name item).

(** Line 257: neither the namespace has records nor the key is applied. *)
Definition fresh a n item : bool :=
  negb (index n (Namespace item)) && negb (index a (keyOf item)).

Inductive BootTrace
  : list (MigrationItem St) -> gmap string bool -> gmap string bool ->
    list Event -> option error -> gmap string bool -> Prop :=
| boot_done a n : BootTrace [] a n [] None a
| boot_pass item rest a n evs r a' :
    fresh a n item = false ->
    BootTrace rest a n evs r a' ->
    BootTrace (item :: rest) a n evs r a'
| boot_skip item rest a n evs r a' :
    fresh a n item = true ->
    BootTrace rest (<[keyOf item := true]> a) (<[Namespace item := true]> n)
      evs r a' ->
    BootTrace (item :: rest) a n
      (CallMarkMigrationSkipped (Namespace item) (Name item) None :: evs) r a'
| boot_abort item rest a n e :
    fresh a n item = true ->
    BootTrace (item :: rest) a n
      [CallMarkMigrationSkipped (Namespace item) (Name item) (Some e)]
      (Some (Errorf_w ("failed to mark migration " +:+ keyOf item
                       +:+ " as skipped: ") e)) a.

(** The context a function is handed: the start marker and nothing else. *)
Definition started item (t : string) : Migration :=
  Log {| logStrings := [] |} (startMarker (Namespace item) (Name item) t).

Definition failedError item (e : error) : error :=
  Errorf_w ("migration " +:+ Namespace item +:+ ":" +:+ Name item
            +:+ " failed: ") e.

Inductive ExecTrace
  : nat -> list (MigrationItem St) -> gmap string bool ->
    list Event -> option error -> Prop :=
| exec_done i a : ExecTrace i [] a [] None
| exec_applied i item rest a evs r :
    index a (keyOf item) = true ->
    ExecTrace (S i) rest a evs r ->
    ExecTrace i (item :: rest) a evs r
| exec_failed i item rest a t left e stored :
    index a (keyOf item) = false ->
    ExecTrace i (item :: rest) a
      [CallFunc i (Namespace item) (Name item) (started item t) left (Some e);
       CallMarkMigrationFailed (Namespace item) (Name item)
         (failureText e left) stored]
      (Some (failedError item e))
| exec_unmarked i item rest a t left e :
    index a (keyOf item) = false ->
    ExecTrace i (item :: rest) a
      [CallFunc i (Namespace item) (Name item) (started item t) left None;
       CallMarkMigrationApplied (Namespace item) (Name item) (Some e)]
      (Some (Errorf_w ("failed to mark migration " +:+ Namespace item +:+ ":"
                       +:+ Name item +:+ " as applied: ") e))
| exec_ran i item rest a t left evs r :
    index a (keyOf item) = false ->
    ExecTrace (S i) rest a evs r ->
    ExecTrace i (item :: rest) a
      (CallFunc i (Namespace item) (Name item) (started item t) left None
       :: CallMarkMigrationApplied (Namespace item) (Name item) None :: evs) r.

(** A whole run, one constructor per way [RunMigrations] returns. *)
Inductive RunTrace (items : list (MigrationItem St))
  : list Event -> option error -> Prop :=
| run_lock_error locked e :
    RunTrace items [CallLock lockKey lockTimeout locked (Some e)]
      (Some (Errorf_w "failed to acquire migration lock: " e))
| run_contention :
    RunTrace items [CallLock lockKey lockTimeout false None]
      (Some (errorString "migration is already running"))
| run_history_error names e u :
    RunTrace items
      [CallLock lockKey lockTimeout true None;
       CallGetAppliedMigrations names (Some e);
       CallUnlock lockKey u]
      (Some (Errorf_w "failed to get applied migrations: " e))
| run_bootstrap_error names evs e a' u :
    BootTrace items (appliedSetOf names) (namespaceHasRecordsOf names)
      evs (Some e) a' ->
    RunTrace items
      (CallLock lockKey lockTimeout true None
       :: CallGetAppliedMigrations names None :: evs ++ [CallUnlock lockKey u])
      (Some e)
| run_executed names evs1 a' evs2 r u :
    BootTrace items (appliedSetOf names) (namespaceHasRecordsOf names)
      evs1 None a' ->
    ExecTrace 0 items a' evs2 r ->
    RunTrace items
      (CallLock lockKey lockTimeout true None
       :: CallGetAppliedMigrations names None
       :: evs1 ++ evs2 ++ [CallUnlock lockKey u])
      r.

End Traces.

(** What may come before a failing invocation at position [j]: successful
    invocations of earlier registrations and their applied marks. *)
Definition beforeFailure (j : nat) (ev : Event) : Prop :=
  match ev with
  | CallFunc j' _ _ _ _ None => j' < j
  | CallMarkMigrationApplied _ _ None => True
  | _ => False
  end.

(** ** What the default store holds

    The part of a row the manager decides: namespace, name, success, logs
    (the primary key and the timestamp come from the database and the clock). *)

Definition Summary : Type := string * string * bool * string.

Definition summary (row : MigrationLog.t) : Summary :=
  (MigrationLog.Namespace row, MigrationLog.Migration row,
   MigrationLog.Success row, MigrationLog.Logs row).



(** The row a recorded call leaves in the default store: none unless the
    call is a write that went through. *)
Definition journal (ev : Event) : option Summary :=
  match ev with
  | CallMarkMigrationApplied namespace name None =>
      Some (namespace, name, true, EmptyString)
  | CallMarkMigrationFailed namespace name errorMsg None =>
      Some (namespace, name, false, errorMsg)
  | CallMarkMigrationSkipped namespace name None =>
      Some (namespace, name, true, "skip")
  | _ => None
  end.

(** The keys [GetAppliedMigrations] of the default store reports for a table. *)
Definition appliedKeys (rows : list MigrationLog.t) : list string :=
  map (fun log => compositeKey (MigrationLog.Namespace log)
                    (MigrationLog.Migration log))
    (List.filter MigrationLog.Success rows).

(** A registered function leaves the migration log table alone. *)
Definition keepsLog {App} (item : MigrationItem (World App)) : Prop :=
  forall migration w,
    migration_logs (snd (Func item migration w)) = migration_logs w.

(** The table of a world, row by row. *)
Definition logView {App} (w : World App) : list Summary :=
  map summary (migration_logs w).

(** The same for any backend seen through [view]: the function leaves the
    view alone, and a recorded state whose view is [base] followed by the rows
    of the writes recorded so far. *)
Definition keepsView {St} (view : St -> list Summary) (item : MigrationItem St)
  : Prop :=
  forall migration st, view (snd (Func item migration st)) = view st.

Definition journalled {St} (view : St -> list Summary) (base : list Summary)
    (rec : St * list Event) : Prop :=
  view (fst rec) = (base ++ omap journal (snd rec))%list.

(** ** Sample registrations and worlds *)

Module Demo.

Definition stamp : Z -> string := fun _ => "2024-05-01T10:00:00Z".

Definition emptyWorld : World unit :=
  {| migration_logs := []; db_faults := []; redis_keys := ∅;
     redis_faults := []; unixNow := 1714557600; app := tt |}.

Definition withHistory (rows : list MigrationLog.t) (faults : list (option error))
  : World unit :=
  {| migration_logs := rows; db_faults := faults; redis_keys := ∅;
     redis_faults := []; unixNow := 1714557600; app := tt |}.

Definition row (id : N) (namespace name : string) (ok : bool) (logs : string)
  : MigrationLog.t :=
  {| MigrationLog.ID := id; MigrationLog.Migration := name;
     MigrationLog.Namespace := namespace; MigrationLog.AppliedAt := 1714471200;
     MigrationLog.Logs := logs; MigrationLog.Success := ok |}.

(** A migration that logs one line and succeeds. *)
Definition succeed : MigrationFunc (World unit) :=
  fun m w => ((Log m "altered table", None), w).

(** A migration that logs one line and fails. *)
Definition failWith (msg : string) : MigrationFunc (World unit) :=
  fun m w => ((Log m "altering table", Some (errorString msg)), w).

Definition item (namespace name : string) (fn : MigrationFunc (World unit))
  : MigrationItem (World unit) :=
  {| Namespace := namespace; Name := name; Func := fn |}.

Definition run (items : list (MigrationItem (World unit))) (w : World unit)
  : option error * World unit * list Event :=
  observeDefault stamp items w.

Definition now (w : World unit) : string := stamp (unixNow w).

Definition manager (items : list (MigrationItem (World unit)))
  : MigrationManager (World unit) :=
  {| storage := DefaultDatabaseMigrationStorage;
     lockProvider := RedisLockProvider;
     migrations := items |}.

(** Another instance holds the lock. *)
Definition heldWorld : World unit :=
  {| migration_logs := []; db_faults := [];
     redis_keys := {[ lockKey := "locked" ]};
     redis_faults := []; unixNow := 1714557600; app := tt |}.

(** A deployment whose namespace [app] already has history. *)
Definition deployed : World unit :=
  withHistory [row 1 "app" "init" true EmptyString] [].

(** The same deployment when the fifth database call to come fails: in a
    run over [abc], the call that provisions the table for
    [MarkMigrationFailed]. *)
Definition flaky : World unit :=
  withHistory [row 1 "app" "init" true EmptyString]
    [None; None; None; None; Some (errorString "connection reset")].

Definition abc : list (MigrationItem (World unit)) :=
  [item "app" "A" succeed; item "app" "B" (failWith "boom");
   item "app" "C" succeed].


Definition givenB : Migration :=
  {| logStrings := [startMarker "app" "B" (stamp 1714557600)] |}.

Definition leftB : Migration := Log givenB "altering table".

Definition tenant : list (MigrationItem (World unit)) :=
  [item "tenantX" "m1" succeed; item "tenantX" "m2" succeed].

Definition twice : list (MigrationItem (World unit)) :=
  [item "app" "m1" succeed; item "app" "m1" succeed].



(** A deployment where [B] failed once and succeeded later. *)
Definition retried : World unit :=
  withHistory [row 1 "app" "init" true EmptyString;
               row 2 "app" "B" false "Migration failed: boom";
               row 3 "app" "B" true EmptyString;
               row 4 "app" "B" false "Migration failed: again"] [].

End Demo.

(** ** Reading more off a trace *)

Definition isNil (err : option error) : bool :=
  match err with
  | None => true
  | Some _ => false
  end.

(** The call went through: the lock was acquired, or the call returned no
    error.  What [Unlock] returns is dropped by the manager and is not
    looked at. *)
Definition wentThrough (ev : Event) : bool :=
  match ev with
  | CallLock _ _ locked err => locked && isNil err
  | CallUnlock _ _ => true
  | CallGetAppliedMigrations _ err => isNil err
  | CallMarkMigrationApplied _ _ err => isNil err
  | CallMarkMigrationFailed _ _ _ err => isNil err
  | CallMarkMigrationSkipped _ _ err => isNil err
  | CallFunc _ _ _ _ _ err => isNil err
  end.

(** The registry position of an invocation. *)
Definition invokedAt (ev : Event) : option nat :=
  match ev with
  | CallFunc i _ _ _ _ _ => Some i
  | _ => None
  end.

Definition isSkip (ev : Event) : bool :=
  match ev with
  | CallMarkMigrationSkipped _ _ _ => true
  | _ => false
  end.

(** ** migration.go: the package-level state and entry points

    The package keeps two variables: [migrationManager], a pointer that is nil
    until [init] or [SetMigrationManager] sets it, and [needAutoMigrations].
    A call through the nil pointer panics. *)

Module Pkg.

Section WithModels.

Context {App Model : Type}.

Record State : Type := {
  migrationManagerVar : option (MigrationManager (World App));
  needAutoMigrations : list Model
}.

(** The package before its [init] has run. *)
Definition zero : State :=
  {| migrationManagerVar := None; needAutoMigrations := [] |}.

(** [func init()]. *)
Definition init (p : State) : State :=
  {| migrationManagerVar :=
       Some (NewMigrationManager DefaultDatabaseMigrationStorage RedisLockProvider);
     needAutoMigrations := needAutoMigrations p |}.

(** [func SetMigrationManager(storage MigrationStorage)]. *)
Definition SetMigrationManager (s : MigrationStorage (World App)) (p : State)
  : State :=
  match migrationManagerVar p with
  | None =>
      {| migrationManagerVar := Some (NewMigrationManager s RedisLockProvider);
         needAutoMigrations := needAutoMigrations p |}
  | Some _ => p
  end.

(** [func RegisterAutoMigrateModels(models ...interface{})]. *)
Definition RegisterAutoMigrateModels (models : list Model) (p : State) : State :=
  {| migrationManagerVar := migrationManagerVar p;
     needAutoMigrations := needAutoMigrations p ++ models |}.

(** [func AddMigrateWithNamespace(namespace, name, fn)]: [None] is the panic
    of [Register] on a nil manager. *)
Definition AddMigrateWithNamespace (namespace name : string)
    (fn : MigrationFunc (World App)) (p : State) : option State :=
  match migrationManagerVar p with
  | None => None
  | Some m =>
      Some {| migrationManagerVar := Some (Register m namespace name fn);
              needAutoMigrations := needAutoMigrations p |}
  end.

(** [func AddMigrate(name, fn)]. *)
Definition AddMigrate (name : string) (fn : MigrationFunc (World App))
    (p : State) : option State :=
  AddMigrateWithNamespace "app" name fn p.

(** The calls other packages make on this one while the program
    initialises, after the package's own [init]. *)
Inductive Call : Type :=
| DoAddMigrateWithNamespace (namespace name : string)
    (fn : MigrationFunc (World App))
| DoAddMigrate (name : string) (fn : MigrationFunc (World App))
| DoSetMigrationManager (s : MigrationStorage (World App))
| DoRegisterAutoMigrateModels (models : list Model).

Definition call (c : Call) (p : State) : option State :=
  match c with
  | DoAddMigrateWithNamespace namespace name fn =>
      AddMigrateWithNamespace namespace name fn p
  | DoAddMigrate name fn => AddMigrate name fn p
  | DoSetMigrationManager s => Some (SetMigrationManager s p)
  | DoRegisterAutoMigrateModels models => Some (RegisterAutoMigrateModels models p)
  end.

(** A sequence of calls; it ends at the first one that panics. *)
Fixpoint calls (cs : list Call) (p : State) : option State :=
  match cs with
  | [] => Some p
  | c :: rest =>
      match call c p with
      | None => None
      | Some p' => calls rest p'
      end
  end.

(** What a call registers. *)
Definition itemsOf (c : Call) : list (MigrationItem (World App)) :=
  match c with
  | DoAddMigrateWithNamespace namespace name fn =>
      [ {| Namespace := namespace; Name := name; Func := fn |} ]
  | DoAddMigrate name fn => [ {| Namespace := "app"; Name := name; Func := fn |} ]
  | _ => []
  end.

Definition modelsOf (c : Call) : list Model :=
  match c with
  | DoRegisterAutoMigrateModels models => models
  | _ => []
  end.

(** How a call ends. *)
Inductive Outcome : Type :=
| Returned (err : option error)
| Panicked.

Variable formatRFC3339 : Z -> string.

(** [database.Database().AutoMigrate(model)] for a model of the application:
    the library's own work on the schema. *)
Variable AutoMigrateModel : Model -> M (World App) (option error).

(** The loop of [Start]: it stops at the first model that fails. *)
Fixpoint autoMigrateAll (models : list Model) : M (World App) (option error) :=
  match models with
  | [] => ret None
  | model :: rest =>
      let* err := AutoMigrateModel model in
      match err with
      | Some e => ret (Some e)
      | None => autoMigrateAll rest
      end
  end.

(** [func Start() error]. *)
Definition Start (p : State) : M (World App) Outcome :=
  let* err := autoMigrateAll (needAutoMigrations p) in
  match err with
  | Some e => ret (Returned (Some e))
  | None =>
      match migrationManagerVar p with
      | None => ret Panicked
      | Some m =>
          let* r := RunMigrations (fun w => formatRFC3339 (unixNow w)) m in
          ret (Returned r)
      end
  end.

End WithModels.

Arguments State : clear implicits.
Arguments Call : clear implicits.

End Pkg.

(** ** auto_drop.go: dropping the columns a model no longer has

    The schema of the database is the application data of the world: for each
    table the names of its columns.  A model is what [stmt.Parse] reads from
    it: its table and the column names of its fields. *)

Module AutoDrop.

Record Model : Type := {
  Table : string;
  DBNames : list string
}.










End AutoDrop.

(** ** More sample data *)

Module Sample.

(** A function that was fixed: it succeeds. *)
Definition fixedB : list (MigrationItem (World unit)) :=
  [Demo.item "app" "A" Demo.succeed; Demo.item "app" "B" Demo.succeed;
   Demo.item "app" "C" Demo.succeed].

(** Redis does not answer the next call. *)
Definition redisDown : World unit :=
  {| migration_logs := [Demo.row 1 "app" "init" true EmptyString];
     db_faults := []; redis_keys := ∅;
     redis_faults := [Some (errorString "dial tcp: connection refused")];
     unixNow := 1714557600; app := tt |}.

(** The database does not answer the next call. *)
Definition dbDown : World unit :=
  Demo.withHistory [Demo.row 1 "app" "init" true EmptyString]
    [Some (errorString "connection reset")].

(** A fresh deployment whose third database call fails: the first call of
    [MarkMigrationSkipped]. *)
Definition skipFails : World unit :=
  Demo.withHistory [] [None; None; Some (errorString "connection reset")].

(** A deployment whose third database call fails: the first call of
    [MarkMigrationApplied]. *)
Definition applyFails : World unit :=
  Demo.withHistory [Demo.row 1 "app" "init" true EmptyString]
    [None; None; Some (errorString "connection reset")].

(** The start of a program: two packages register migrations and the
    models package tries to install its own store, which is any store [s]. *)
Definition startup (s : MigrationStorage (World unit))
  : list (Pkg.Call unit string) :=
  [Pkg.DoAddMigrate "create_users" Demo.succeed;
   Pkg.DoRegisterAutoMigrateModels ["migration_logs"];
   Pkg.DoSetMigrationManager s;
   Pkg.DoAddMigrateWithNamespace "billing" "create_invoices" Demo.succeed].





(** Models of an application; to migrate the second one fails. *)
Definition autoMigrate (model : string) : M (World unit) (option error) :=
  fun w =>
    if String.eqb model "sessions"
    then (Some (errorString "table sessions is locked"), w)
    else (None, w).

Definition loaded : Pkg.State unit string :=
  Pkg.RegisterAutoMigrateModels ["accounts"; "sessions"; "audit"]
    (Pkg.init Pkg.zero).

End Sample.

(** * Supporting lemmas *)

(** ** The recorder reports the run faithfully *)

Section RecordedRun.

Context {St : Type}.
Variable nowRFC3339 : St -> string.

Lemma bootstrapLoop_recorded (s : MigrationStorage St) items : forall i a n st tr,
  exists evs,
    bootstrapLoop (recordStorage s) (recordItems i items) a n (st, tr)
    = (fst (bootstrapLoop s items a n st),
       (snd (bootstrapLoop s items a n st), (tr ++ evs)%list))
    /\ BootTrace items a n evs
         (fst (fst (bootstrapLoop s items a n st)))
         (snd (fst (bootstrapLoop s items a n st))).
Proof.
  induction items as [|item rest IH]; intros i a n st tr; simpl.
  - exists []. rewrite app_nil_r. split; [reflexivity | constructor].
  - fold (keyOf item). fold (fresh a n item).
    destruct (fresh a n item) eqn:Hf.
    + unfold bind, record; simpl.
      destruct (MarkMigrationSkipped s (Namespace item) (Name item) st)
        as [[e|] st1] eqn:Hm; simpl.
      * eexists. split; [reflexivity | by apply boot_abort].
      * destruct (IH (S i) (<[keyOf item := true]> a)
                    (<[Namespace item := true]> n) st1
                    (tr ++ [CallMarkMigrationSkipped (Namespace item)
                              (Name item) None])%list)
          as (evs & -> & Htr).
        eexists. rewrite <- app_assoc. split; [reflexivity|].
        simpl. by apply boot_skip.
    + destruct (IH (S i) a n st tr) as (evs & -> & Htr).
      exists evs. split; [reflexivity | by apply boot_pass].
Qed.

Lemma executeLoop_recorded (s : MigrationStorage St) items : forall i a st tr,
  exists evs,
    executeLoop (fun st => nowRFC3339 (fst st)) (recordStorage s)
      (recordItems i items) a (st, tr)
    = (fst (executeLoop nowRFC3339 s items a st),
       (snd (executeLoop nowRFC3339 s items a st), (tr ++ evs)%list))
    /\ ExecTrace i items a evs (fst (executeLoop nowRFC3339 s items a st)).
Proof.
  induction items as [|item rest IH]; intros i a st tr; simpl.
  - exists []. rewrite app_nil_r. split; [reflexivity | constructor].
  - fold (keyOf item).
    destruct (index a (keyOf item)) eqn:Ha.
    + destruct (IH (S i) a st tr) as (evs & -> & Htr).
      exists evs. split; [reflexivity | by apply exec_applied].
    + unfold bind, record, gets; simpl.
      fold (started item (nowRFC3339 st)).
      destruct (Func item (started item (nowRFC3339 st)) st)
        as [[left [e|]] st1] eqn:Hf; simpl.
      * destruct (MarkMigrationFailed s (Namespace item) (Name item)
                    (failureText e left) st1) as [stored st2] eqn:Hm; simpl.
        eexists. rewrite <- app_assoc. split; [reflexivity|].
        simpl. by apply exec_failed.
      * destruct (MarkMigrationApplied s (Namespace item) (Name item) st1)
          as [[e|] st2] eqn:Hm; simpl.
        -- eexists. rewrite <- app_assoc. split; [reflexivity|].
           simpl. by apply exec_unmarked.
        -- match goal with
           | |- context [executeLoop _ (recordStorage s) _ a (st2, ?tr2)] =>
               destruct (IH (S i) a st2 tr2) as (evs & -> & Htr)
           end.
           eexists. rewrite <- !app_assoc. split; [reflexivity|].
           simpl. by apply exec_ran.
Qed.

(** The recorded run returns what the plain run returns and leaves the state
    the plain run leaves; its trace is one of [RunTrace]; its first event
    reports what [Lock] answered in the initial state and, when a second event
    reports the history, that is what [GetAppliedMigrations] answered in the
    state [Lock] left. *)
Lemma observe_spec (m : MigrationManager St) (st : St) :
  let lk := Lock (lockProvider m) lockKey lockTimeout st in
  exists rest,
    observe nowRFC3339 m st
    = (RunMigrations nowRFC3339 m st,
       CallLock lockKey lockTimeout (fst (fst lk)) (snd (fst lk)) :: rest)
    /\ RunTrace (migrations m)
         (CallLock lockKey lockTimeout (fst (fst lk)) (snd (fst lk)) :: rest)
         (fst (RunMigrations nowRFC3339 m st))
    /\ (forall names e rest',
          rest = CallGetAppliedMigrations names e :: rest' ->
          fst (GetAppliedMigrations (storage m) (snd lk)) = (names, e)).
Proof.
  destruct m as [sto l items]; simpl.
  unfold observe, RunMigrations, bind, record; simpl.
  destruct (Lock l lockKey lockTimeout st) as [[locked [e|]] st1] eqn:Hl; simpl.
  { eexists. split; [reflexivity|]. split; [constructor | discriminate]. }
  destruct locked; simpl.
  2: { eexists. split; [reflexivity|]. split; [constructor | discriminate]. }
  unfold runLocked, bind, record; simpl.
  destruct (GetAppliedMigrations sto st1) as [[names [e|]] st2] eqn:Hg; simpl.
  { destruct (Unlock l lockKey st2) as [u st3] eqn:Hu; simpl.
    eexists. split; [reflexivity|]. split; [constructor|].
    intros ? ? ? [= <- <- <-]. reflexivity. }
  destruct (bootstrapLoop_recorded sto items 0 (appliedSetOf names)
              (namespaceHasRecordsOf names) st2
              [CallLock lockKey lockTimeout true None;
               CallGetAppliedMigrations names None])
    as (evs1 & -> & Hboot).
  destruct (bootstrapLoop sto items (appliedSetOf names)
              (namespaceHasRecordsOf names) st2)
    as [[[e|] a'] st3] eqn:Hb; simpl in *.
  { destruct (Unlock l lockKey st3) as [u st4] eqn:Hu; simpl.
    eexists. split; [reflexivity|]. split.
    - eapply run_bootstrap_error, Hboot.
    - intros ? ? ? [= <- <- <-]. reflexivity. }
  match goal with
  | |- context [executeLoop _ (recordStorage sto) _ a' (st3, ?tr3)] =>
      destruct (executeLoop_recorded sto items 0 a' st3 tr3) as (evs2 & -> & Hexec)
  end.
  destruct (executeLoop nowRFC3339 sto items a' st3) as [r st4] eqn:He; simpl in *.
  destruct (Unlock l lockKey st4) as [u st5] eqn:Hu; simpl.
  eexists. split; [rewrite <- !app_assoc; reflexivity|]. split.
  - simpl. eapply run_executed; eassumption.
  - intros ? ? ? [= <- <- <-]. reflexivity.
Qed.

Lemma observe_RunTrace (m : MigrationManager St) (st : St) :
  RunTrace (migrations m) (trace (observe nowRFC3339 m st))
    (result (observe nowRFC3339 m st)).
Proof.
  destruct (observe_spec m st) as (rest & Heq & Htr & _).
  unfold trace, result. rewrite Heq. exact Htr.
Qed.

Lemma observe_plain (m : MigrationManager St) (st : St) :
  (result (observe nowRFC3339 m st), final (observe nowRFC3339 m st))
  = RunMigrations nowRFC3339 m st.
Proof.
  destruct (observe_spec m st) as (rest & Heq & _).
  unfold result, final. rewrite Heq. simpl.
  by destruct (RunMigrations nowRFC3339 m st).
Qed.

End RecordedRun.

(** ** Maps of flags *)

Lemma index_insert (a : gmap string bool) (k k' : string) :
  index (<[k := true]> a) k' = true <-> k = k' \/ index a k' = true.
Proof.
  unfold index. destruct (decide (k = k')) as [->|Hne].
  - rewrite lookup_insert_eq. simpl. tauto.
  - rewrite lookup_insert_ne by done. split; [tauto | intros [?|?]; done].
Qed.

Lemma index_insert_keeps (a : gmap string bool) (k k' : string) :
  index a k' = true -> index (<[k := true]> a) k' = true.
Proof. intros H. apply index_insert. by right. Qed.

Lemma index_empty (k : string) : index ∅ k = false.
Proof. unfold index. by rewrite lookup_empty. Qed.

Lemma appliedSetOf_from (names : list string) : forall acc k,
  index (foldl (fun acc name => <[name := true]> acc) acc names) k = true
  <-> index acc k = true \/ In k names.
Proof.
  induction names as [|x names IH]; intros acc k; simpl.
  - tauto.
  - rewrite IH, index_insert. split.
    + intros [[->|?]|?]; auto.
    + intros [?|[->|?]]; auto.
Qed.

Lemma appliedSetOf_spec (names : list string) (k : string) :
  index (appliedSetOf names) k = true <-> In k names.
Proof.
  unfold appliedSetOf. rewrite appliedSetOf_from, index_empty.
  split; [intros [?|?]; done | by right].
Qed.

(** ** Facts about the traces of the two loops *)

Section TraceFacts.

Context {St : Type}.
Implicit Types (item : MigrationItem St) (items : list (MigrationItem St)).
Implicit Types (a n : gmap string bool).

Lemma BootTrace_grows items a n evs r a' :
  BootTrace items a n evs r a' ->
  forall k, index a k = true -> index a' k = true.
Proof.
  induction 1; intros k Hk; auto.
  apply IHBootTrace. by apply index_insert_keeps.
Qed.

Lemma BootTrace_only_skips items a n evs r a' :
  BootTrace items a n evs r a' ->
  forall ev, In ev evs ->
  exists namespace name err, ev = CallMarkMigrationSkipped namespace name err.
Proof.
  induction 1; intros ev Hin; simpl in Hin.
  - done.
  - auto.
  - destruct Hin as [<-|Hin]; eauto.
  - destruct Hin as [<-|[]]; eauto.
Qed.

Lemma BootTrace_skipped_applied items a n evs r a' :
  BootTrace items a n evs r a' ->
  forall namespace name,
    In (CallMarkMigrationSkipped namespace name None) evs ->
    index a' (compositeKey namespace name) = true.
Proof.
  induction 1; intros namespace name Hin; simpl in Hin.
  - done.
  - auto.
  - destruct Hin as [[= <- <-]|Hin]; [|auto].
    eapply BootTrace_grows; [eassumption|].
    apply index_insert. by left.
  - destruct Hin as [[=]|[]].
Qed.

Lemma BootTrace_origin items a n evs r a' :
  BootTrace items a n evs r a' ->
  forall k, index a' k = true ->
    index a k = true
    \/ exists namespace name,
         k = compositeKey namespace name
         /\ In (CallMarkMigrationSkipped namespace name None) evs.
Proof.
  induction 1; intros k Hk; auto.
  destruct (IHBootTrace k Hk) as [Hk'|(namespace & name & -> & Hin)].
  - apply index_insert in Hk' as [<-|?]; [|by left].
    right. exists (Namespace item), (Name item). split; [reflexivity | by left].
  - right. exists namespace, name. split; [reflexivity | by right].
Qed.





(** An invocation comes from the registration at its position, whose key
    was not applied, and hands over the start marker alone. *)
Lemma ExecTrace_invoked i items a evs r :
  ExecTrace i items a evs r ->
  forall j namespace name given left err,
    In (CallFunc j namespace name given left err) evs ->
    index a (compositeKey namespace name) = false
    /\ i <= j
    /\ exists item t,
         items !! (j - i) = Some item
         /\ Namespace item = namespace /\ Name item = name
         /\ given = started item t.
Proof.
  induction 1; intros j namespace name given lft err Hin; simpl in Hin.
  - done.
  - destruct (IHExecTrace _ _ _ _ _ _ Hin) as (Ha & Hle & x & t & Hx & Hrest).
    split; [done|]. split; [lia|]. exists x, t. split; [|done].
    replace (j - i) with (S (j - S i)) by lia. done.
  - destruct Hin as [[= <- <- <- <- <- <-]|[[=]|[]]].
    split; [done|]. split; [lia|]. exists item, t.
    rewrite Nat.sub_diag. done.
  - destruct Hin as [[= <- <- <- <- <- <-]|[[=]|[]]].
    split; [done|]. split; [lia|]. exists item, t.
    rewrite Nat.sub_diag. done.
  - destruct Hin as [[= <- <- <- <- <- <-]|[[=]|Hin]].
    + split; [done|]. split; [lia|]. exists item, t.
      rewrite Nat.sub_diag. done.
    + destruct (IHExecTrace _ _ _ _ _ _ Hin) as (Ha & Hle & x & t' & Hx & Hrest).
      split; [done|]. split; [lia|]. exists x, t'. split; [|done].
      replace (j - i) with (S (j - S i)) by lia. done.
Qed.

(** A failing invocation is followed by its [MarkMigrationFailed] call and by
    nothing else, and the loop returns the wrapped failure. *)
Lemma ExecTrace_failure i items a evs r :
  ExecTrace i items a evs r ->
  forall j namespace name given left e,
    In (CallFunc j namespace name given left (Some e)) evs ->
    exists pre stored,
      evs = (pre ++ [CallFunc j namespace name given left (Some e);
                     CallMarkMigrationFailed namespace name
                       (failureText e left) stored])%list
      /\ Forall (beforeFailure j) pre
      /\ r = Some (Errorf_w ("migration " +:+ namespace +:+ ":" +:+ name
                             +:+ " failed: ") e).
Proof.
  induction 1; intros j namespace name given lft e0 Hin; simpl in Hin.
  - done.
  - eauto.
  - destruct Hin as [[= <- <- <- <- <- <-]|[[=]|[]]].
    exists [], stored. done.
  - destruct Hin as [[=]|[[=]|[]]].
  - destruct Hin as [[=]|[[=]|Hin]].
    destruct (ExecTrace_invoked _ _ _ _ _ H0 _ _ _ _ _ _ Hin) as (_ & Hle & _).
    destruct (IHExecTrace _ _ _ _ _ _ Hin) as (pre & stored & -> & Hpre & ->).
    eexists (_ :: _ :: pre), stored. split; [reflexivity|]. split; [|done].
    repeat constructor; [simpl; lia | done].
Qed.

Lemma ExecTrace_no_unlock i items a evs r :
  ExecTrace i items a evs r -> countWhere isUnlock evs = 0.
Proof. induction 1; done. Qed.

Lemma BootTrace_no_unlock items a n evs r a' :
  BootTrace items a n evs r a' -> countWhere isUnlock evs = 0.
Proof. induction 1; done. Qed.


End TraceFacts.

(** ** Strings *)

Lemma append_nil (s : string) : EmptyString +:+ s = s.
Proof. reflexivity. Qed.

Lemma append_cons (c : Ascii.ascii) (s t : string) :
  String c s +:+ t = String c (s +:+ t).
Proof. reflexivity. Qed.

Lemma append_assoc (s1 s2 s3 : string) : (s1 +:+ s2) +:+ s3 = s1 +:+ s2 +:+ s3.
Proof.
  induction s1 as [|c s1 IH]; [done|].
  by rewrite !append_cons, IH.
Qed.

Lemma append_nil_r (s : string) : s +:+ EmptyString = s.
Proof.
  induction s as [|c s IH]; [done|]. by rewrite append_cons, IH.
Qed.




Lemma prefix_colon (c : ascii) (s : string) :
  String.prefix ":" (String c s) = if Ascii.ascii_dec ":" c then true else false.
Proof. cbn [String.prefix]. by destruct (Ascii.ascii_dec ":" c), s. Qed.

Lemma Contains_colon_cons (c : ascii) (s : string) :
  strings.Contains (String c s) ":" = false ->
  String.prefix ":" (String c s) = false /\ strings.Contains s ":" = false.
Proof. cbn [strings.Contains]. apply orb_false_elim. Qed.






(** ** The store as a journal of the recorded writes

    For a backend whose writes append and whose other calls leave the table
    alone, the table after a run is the table before it followed by one row per
    recorded write that went through. *)

Section Journal.

Context {St : Type}.
Variable nowRFC3339 : St -> string.
Variable view : St -> list Summary.
Variable s : MigrationStorage St.
Variable l : LockProvider St.

Hypothesis view_Lock : forall key seconds st,
  view (snd (Lock l key seconds st)) = view st.
Hypothesis view_Unlock : forall key st, view (snd (Unlock l key st)) = view st.
Hypothesis view_Get : forall st, view (snd (GetAppliedMigrations s st)) = view st.
Hypothesis view_Applied : forall namespace name st,
  view (snd (MarkMigrationApplied s namespace name st))
  = (view st ++ omap journal
       [CallMarkMigrationApplied namespace name
          (fst (MarkMigrationApplied s namespace name st))])%list.
Hypothesis view_Failed : forall namespace name errorMsg st,
  view (snd (MarkMigrationFailed s namespace name errorMsg st))
  = (view st ++ omap journal
       [CallMarkMigrationFailed namespace name errorMsg
          (fst (MarkMigrationFailed s namespace name errorMsg st))])%list.
Hypothesis view_Skipped : forall namespace name st,
  view (snd (MarkMigrationSkipped s namespace name st))
  = (view st ++ omap journal
       [CallMarkMigrationSkipped namespace name
          (fst (MarkMigrationSkipped s namespace name st))])%list.

Lemma bootstrapLoop_journal base items : forall i a n rec,
  journalled view base rec ->
  journalled view base
    (snd (bootstrapLoop (recordStorage s) (recordItems i items) a n rec)).
Proof.
  induction items as [|item rest IH]; intros i a n [st tr] Hj; simpl.
  - exact Hj.
  - destruct (negb (index n (Namespace item)) && _); [|by apply IH].
    unfold bind, record; simpl.
    pose proof (view_Skipped (Namespace item) (Name item) st) as Hv.
    destruct (MarkMigrationSkipped s (Namespace item) (Name item) st)
      as [[e|] st1]; simpl in *.
    + unfold journalled in *; simpl in *.
      rewrite Hv, Hj, omap_app. simpl. by rewrite !app_nil_r.
    + apply IH. unfold journalled in *; simpl in *.
      rewrite Hv, Hj, omap_app. simpl. by rewrite <- app_assoc.
Qed.

Lemma executeLoop_journal base items : forall i a rec,
  Forall (keepsView view) items ->
  journalled view base rec ->
  journalled view base
    (snd (executeLoop (fun st => nowRFC3339 (fst st)) (recordStorage s)
            (recordItems i items) a rec)).
Proof.
  induction items as [|item rest IH]; intros i a [st tr] Hk Hj; simpl.
  - exact Hj.
  - apply Forall_cons in Hk as [Hitem Hk].
    destruct (index a _); [by apply IH|].
    unfold bind, record, gets; simpl.
    pose proof (Hitem (Log {| logStrings := [] |}
                         (startMarker (Namespace item) (Name item)
                            (nowRFC3339 st))) st) as Hf.
    destruct (Func item _ st) as [[lft [e|]] st1]; simpl in *.
    + pose proof (view_Failed (Namespace item) (Name item)
                    (failureText e lft) st1) as Hv.
      destruct (MarkMigrationFailed s _ _ _ st1) as [stored st2]; simpl in *.
      unfold journalled in *; simpl in *.
      rewrite Hv, Hf, Hj, !omap_app. simpl. by rewrite <- !app_assoc.
    + pose proof (view_Applied (Namespace item) (Name item) st1) as Hv.
      destruct (MarkMigrationApplied s _ _ st1) as [[e|] st2]; simpl in *.
      * unfold journalled in *; simpl in *.
        rewrite Hv, Hf, Hj, !omap_app. simpl. by rewrite !app_nil_r.
      * apply IH; [done|]. unfold journalled in *; simpl in *.
        rewrite Hv, Hf, Hj, !omap_app. simpl. by rewrite <- !app_assoc.
Qed.

Lemma observe_journal (items : list (MigrationItem St)) (st : St) :
  Forall (keepsView view) items ->
  let run := observe nowRFC3339
               {| storage := s; lockProvider := l; migrations := items |} st in
  view (final run) = (view st ++ omap journal (trace run))%list.
Proof.
  intros Hk. unfold observe, RunMigrations, bind, record; simpl.
  pose proof (view_Lock lockKey lockTimeout st) as Hl.
  destruct (Lock l lockKey lockTimeout st) as [[locked [e|]] st1]; simpl in *.
  { unfold final, trace; simpl. by rewrite app_nil_r. }
  destruct locked; simpl.
  2: { unfold final, trace; simpl. by rewrite app_nil_r. }
  unfold runLocked, bind, record; simpl.
  pose proof (view_Get st1) as Hg.
  destruct (GetAppliedMigrations s st1) as [[names [e|]] st2]; simpl in *.
  { pose proof (view_Unlock lockKey st2) as Hu.
    destruct (Unlock l lockKey st2) as [u st3]; simpl in *.
    unfold final, trace; simpl. rewrite app_nil_r. congruence. }
  assert (journalled view (view st)
            (st2, [CallLock lockKey lockTimeout true None;
                   CallGetAppliedMigrations names None])) as Hj.
  { unfold journalled; simpl. rewrite app_nil_r. congruence. }
  apply (bootstrapLoop_journal _ items 0 (appliedSetOf names)
           (namespaceHasRecordsOf names)) in Hj.
  destruct (bootstrapLoop (recordStorage s) _ _ _ _)
    as [[[e|] a'] [st3 tr3]]; simpl in *.
  { pose proof (view_Unlock lockKey st3) as Hu.
    destruct (Unlock l lockKey st3) as [u st4]; simpl in *.
    unfold final, trace, journalled in *; simpl in *.
    rewrite Hu, Hj, omap_app. simpl. by rewrite app_nil_r. }
  apply (executeLoop_journal _ items 0 a' _ Hk) in Hj.
  destruct (executeLoop _ (recordStorage s) _ _ _) as [r [st4 tr4]]; simpl in *.
  pose proof (view_Unlock lockKey st4) as Hu.
  destruct (Unlock l lockKey st4) as [u st5]; simpl in *.
  unfold final, trace, journalled in *; simpl in *.
  rewrite Hu, Hj, omap_app. simpl. by rewrite app_nil_r.
Qed.

End Journal.

(** ** The default backends *)

Section DefaultBackends.

Context {App : Type}.
Implicit Types (w : World App).

Lemma Lock_rows key seconds w :
  migration_logs (snd (Lock RedisLockProvider key seconds w)) = migration_logs w.
Proof.
  unfold RedisLockProvider, Lock, bind, redisCall, gets, setKeys, ret; simpl.
  destruct (nextFault (redis_faults w)) as [[e|] rest]; simpl; [done|].
  by destruct (redis_keys w !! key).
Qed.

Lemma Unlock_rows key w :
  migration_logs (snd (Unlock RedisLockProvider key w)) = migration_logs w.
Proof.
  unfold RedisLockProvider, Unlock, bind, redisCall, gets, setKeys, ret; simpl.
  by destruct (nextFault (redis_faults w)) as [[e|] rest].
Qed.

Lemma GetAppliedMigrations_rows w :
  migration_logs (snd (GetAppliedMigrations DefaultDatabaseMigrationStorage w))
  = migration_logs w.
Proof.
  unfold DefaultDatabaseMigrationStorage, GetAppliedMigrations, AutoMigrate,
    FindSuccessful, bind, dbCall, gets, ret; simpl.
  destruct (nextFault (db_faults w)) as [[e|] rest]; simpl; [done|].
  by destruct (nextFault rest) as [[e|] rest'].
Qed.

(** When the history loads, it is the keys of the successful rows. *)
Lemma GetAppliedMigrations_names w names :
  fst (GetAppliedMigrations DefaultDatabaseMigrationStorage w) = (names, None) ->
  names = appliedKeys (migration_logs w).
Proof.
  unfold DefaultDatabaseMigrationStorage, GetAppliedMigrations, AutoMigrate,
    FindSuccessful, bind, dbCall, gets, ret; simpl.
  destruct (nextFault (db_faults w)) as [[e|] rest]; simpl; [done|].
  destruct (nextFault rest) as [[e|] rest']; simpl; [done|].
  by intros [= <-].
Qed.

Lemma MarkMigrationApplied_view namespace name w :
  logView (snd (MarkMigrationApplied DefaultDatabaseMigrationStorage
                  namespace name w))
  = (logView w ++ omap journal
       [CallMarkMigrationApplied namespace name
          (fst (MarkMigrationApplied DefaultDatabaseMigrationStorage
                  namespace name w))])%list.
Proof.
  unfold DefaultDatabaseMigrationStorage, MarkMigrationApplied, AutoMigrate,
    Create, bind, dbCall, gets, setRows, ret, logView; simpl.
  destruct (nextFault (db_faults w)) as [[e|] rest]; simpl;
    [by rewrite app_nil_r|].
  destruct (nextFault rest) as [[e|] rest']; simpl; [by rewrite app_nil_r|].
  by rewrite map_app.
Qed.

Lemma MarkMigrationFailed_view namespace name errorMsg w :
  logView (snd (MarkMigrationFailed DefaultDatabaseMigrationStorage
                  namespace name errorMsg w))
  = (logView w ++ omap journal
       [CallMarkMigrationFailed namespace name errorMsg
          (fst (MarkMigrationFailed DefaultDatabaseMigrationStorage
                  namespace name errorMsg w))])%list.
Proof.
  unfold DefaultDatabaseMigrationStorage, MarkMigrationFailed, AutoMigrate,
    Create, bind, dbCall, gets, setRows, ret, logView; simpl.
  destruct (nextFault (db_faults w)) as [[e|] rest]; simpl;
    [by rewrite app_nil_r|].
  destruct (nextFault rest) as [[e|] rest']; simpl; [by rewrite app_nil_r|].
  by rewrite map_app.
Qed.

Lemma MarkMigrationSkipped_view namespace name w :
  logView (snd (MarkMigrationSkipped DefaultDatabaseMigrationStorage
                  namespace name w))
  = (logView w ++ omap journal
       [CallMarkMigrationSkipped namespace name
          (fst (MarkMigrationSkipped DefaultDatabaseMigrationStorage
                  namespace name w))])%list.
Proof.
  unfold DefaultDatabaseMigrationStorage, MarkMigrationSkipped, AutoMigrate,
    Create, bind, dbCall, gets, setRows, ret, logView; simpl.
  destruct (nextFault (db_faults w)) as [[e|] rest]; simpl;
    [by rewrite app_nil_r|].
  destruct (nextFault rest) as [[e|] rest']; simpl; [by rewrite app_nil_r|].
  by rewrite map_app.
Qed.

(** A [MarkMigrationFailed] that errors writes nothing. *)
Lemma MarkMigrationFailed_error namespace name errorMsg w e :
  fst (MarkMigrationFailed DefaultDatabaseMigrationStorage
         namespace name errorMsg w) = Some e ->
  migration_logs (snd (MarkMigrationFailed DefaultDatabaseMigrationStorage
                         namespace name errorMsg w))
  = migration_logs w.
Proof.
  unfold DefaultDatabaseMigrationStorage, MarkMigrationFailed, AutoMigrate,
    Create, bind, dbCall, gets, setRows, ret; simpl.
  destruct (nextFault (db_faults w)) as [[e1|] rest]; simpl; [done|].
  by destruct (nextFault rest) as [[e2|] rest'].
Qed.

Lemma keepsLog_keepsView (item : MigrationItem (World App)) :
  keepsLog item -> keepsView logView item.
Proof. intros H migration w. unfold logView. by rewrite H. Qed.

Variable formatRFC3339 : Z -> string.

(** After a run of the default manager the table is the table before it
    followed by one row per recorded write that went through. *)
Lemma observeDefault_journal (items : list (MigrationItem (World App))) w :
  Forall keepsLog items ->
  logView (final (observeDefault formatRFC3339 items w))
  = (logView w ++ omap journal (trace (observeDefault formatRFC3339 items w)))%list.
Proof.
  intros Hk. unfold observeDefault.
  apply (observe_journal (fun w => formatRFC3339 (unixNow w)) logView
           DefaultDatabaseMigrationStorage RedisLockProvider).
  - intros. unfold logView. by rewrite Lock_rows.
  - intros. unfold logView. by rewrite Unlock_rows.
  - intros. unfold logView. by rewrite GetAppliedMigrations_rows.
  - apply MarkMigrationApplied_view.
  - apply MarkMigrationFailed_view.
  - apply MarkMigrationSkipped_view.
  - eapply Forall_impl; [exact Hk | apply keepsLog_keepsView].
Qed.


End DefaultBackends.

(** ** Facts about the trace of a whole run *)

Lemma countWhere_app (p : Event -> bool) (xs ys : list Event) :
  countWhere p (xs ++ ys) = countWhere p xs + countWhere p ys.
Proof. unfold countWhere. by rewrite List.filter_app, length_app. Qed.

Lemma countWhere_none (p : Event -> bool) (xs : list Event) :
  (forall ev, In ev xs -> p ev = false) -> countWhere p xs = 0.
Proof.
  unfold countWhere. induction xs as [|x xs IH]; intros H; simpl; [done|].
  rewrite (H x) by (by left). apply IH. intros ev Hev. apply H. by right.
Qed.

Lemma countWhere_zero_In (p : Event -> bool) (xs : list Event) (ev : Event) :
  countWhere p xs = 0 -> In ev xs -> p ev = false.
Proof.
  unfold countWhere. induction xs as [|x xs IH]; simpl; [done|].
  destruct (p x) eqn:Hp; simpl; [done|].
  intros H0 [<-|Hin]; auto.
Qed.

Section RunFacts.

Context {St : Type}.
Implicit Types (items : list (MigrationItem St)).

(** Only a run that got past the bootstrap loop invokes functions, and the
    invocations are those of the execution loop. *)
Lemma RunTrace_invoked items tr r :
  RunTrace items tr r ->
  forall j namespace name given left err,
    In (CallFunc j namespace name given left err) tr ->
    exists names evs1 a' evs2 u,
      tr = CallLock lockKey lockTimeout true None
           :: CallGetAppliedMigrations names None
           :: (evs1 ++ evs2 ++ [CallUnlock lockKey u])%list
      /\ BootTrace items (appliedSetOf names) (namespaceHasRecordsOf names)
           evs1 None a'
      /\ ExecTrace 0 items a' evs2 r
      /\ In (CallFunc j namespace name given left err) evs2.
Proof.
  destruct 1; intros j namespace name given lft err Hin; simpl in Hin.
  - destruct Hin as [[=]|[]].
  - destruct Hin as [[=]|[]].
  - destruct Hin as [[=]|[[=]|[[=]|[]]]].
  - destruct Hin as [[=]|[[=]|Hin]].
    apply in_app_or in Hin as [Hin|[[=]|[]]].
    destruct (BootTrace_only_skips _ _ _ _ _ _ H _ Hin) as (? & ? & ? & [=]).
  - destruct Hin as [[=]|[[=]|Hin]].
    apply in_app_or in Hin as [Hin|Hin].
    { destruct (BootTrace_only_skips _ _ _ _ _ _ H _ Hin) as (? & ? & ? & [=]). }
    apply in_app_or in Hin as [Hin|[[=]|[]]].
    exists names, evs1, a', evs2, u. done.
Qed.

(** A failing invocation ends the run: its [MarkMigrationFailed] call and the
    deferred [Unlock] are all that follow; before it there are only successful
    invocations of earlier registrations and no [MarkMigrationFailed]. *)
Lemma RunTrace_failure items tr r :
  RunTrace items tr r ->
  forall j namespace name given left e,
    In (CallFunc j namespace name given left (Some e)) tr ->
    exists pre stored u,
      tr = (pre ++ [CallFunc j namespace name given left (Some e);
                    CallMarkMigrationFailed namespace name
                      (failureText e left) stored;
                    CallUnlock lockKey u])%list
      /\ (forall j' namespace' name' given' left' err',
            In (CallFunc j' namespace' name' given' left' err') pre ->
            j' < j /\ err' = None)
      /\ countWhere isMarkFailed pre = 0
      /\ r = Some (Errorf_w ("migration " +:+ namespace +:+ ":" +:+ name
                             +:+ " failed: ") e).
Proof.
  intros Hrun j namespace name given lft e Hin.
  destruct (RunTrace_invoked _ _ _ Hrun _ _ _ _ _ _ Hin)
    as (names & evs1 & a' & evs2 & u & -> & Hboot & Hexec & Hin2).
  destruct (ExecTrace_failure _ _ _ _ _ Hexec _ _ _ _ _ _ Hin2)
    as (pre2 & stored & -> & Hpre & ->).
  exists (CallLock lockKey lockTimeout true None
          :: CallGetAppliedMigrations names None :: evs1 ++ pre2)%list, stored, u.
  split; [simpl; by rewrite <- !app_assoc|].
  split; [|split; [|done]].
  - intros j' ns' name' g' l' err' [[=]|[[=]|Hpre']].
    apply in_app_or in Hpre' as [Hb|Hp].
    + destruct (BootTrace_only_skips _ _ _ _ _ _ Hboot _ Hb) as (? & ? & ? & [=]).
    + rewrite List.Forall_forall in Hpre. specialize (Hpre _ Hp). simpl in Hpre.
      destruct err'; done.
  - apply countWhere_none. intros ev [<-|[<-|Hev]]; [done..|].
    apply in_app_or in Hev as [Hb|Hp].
    + by destruct (BootTrace_only_skips _ _ _ _ _ _ Hboot _ Hb) as (? & ? & ? & ->).
    + rewrite List.Forall_forall in Hpre. specialize (Hpre _ Hp).
      by destruct ev as [| | | | |?|? ? ? ? ? []].
Qed.

Lemma RunTrace_unlocks items tr r :
  RunTrace items (CallLock lockKey lockTimeout true None :: tr) r ->
  countWhere isUnlock (CallLock lockKey lockTimeout true None :: tr) = 1
  /\ exists u, last (CallLock lockKey lockTimeout true None :: tr)
               = Some (CallUnlock lockKey u).
Proof.
  intros H.
  inversion H as [ | | names e u | names evs e a' u Hb
                 | names evs1 a' evs2 r' u Hb He ]; subst.
  - split; [done | by exists u].
  - split.
    + change (countWhere isUnlock (evs ++ [CallUnlock lockKey u]) = 1).
      rewrite countWhere_app, (BootTrace_no_unlock _ _ _ _ _ _ Hb). done.
    + exists u. by rewrite !app_comm_cons, last_snoc.
  - split.
    + change (countWhere isUnlock (evs1 ++ evs2 ++ [CallUnlock lockKey u]) = 1).
      rewrite !countWhere_app, (BootTrace_no_unlock _ _ _ _ _ _ Hb),
        (ExecTrace_no_unlock _ _ _ _ _ He). done.
    + exists u. by rewrite !app_comm_cons, !app_assoc, last_snoc.
Qed.

(** The ways a run can go, read off the events after the [Lock] call. *)
Lemma RunTrace_cases items locked e rest r :
  RunTrace items (CallLock lockKey lockTimeout locked e :: rest) r ->
  (rest = [] /\ r <> None)
  \/ (exists names e' u,
        rest = [CallGetAppliedMigrations names (Some e'); CallUnlock lockKey u]
        /\ r <> None)
  \/ (exists names evs e' a' u,
        rest = CallGetAppliedMigrations names None
               :: (evs ++ [CallUnlock lockKey u])%list
        /\ BootTrace items (appliedSetOf names) (namespaceHasRecordsOf names)
             evs (Some e') a'
        /\ r = Some e')
  \/ (exists names evs1 a' evs2 u,
        rest = CallGetAppliedMigrations names None
               :: (evs1 ++ evs2 ++ [CallUnlock lockKey u])%list
        /\ BootTrace items (appliedSetOf names) (namespaceHasRecordsOf names)
             evs1 None a'
        /\ ExecTrace 0 items a' evs2 r).
Proof.
  intros H.
  inversion H as [ | | names e' u | names evs e' a' u Hb
                 | names evs1 a' evs2 r' u Hb He ]; subst.
  - by left.
  - by left.
  - right. left. by exists names, e', u.
  - right. right. left. by exists names, evs, e', a', u.
  - right. right. right. by exists names, evs1, a', evs2, u.
Qed.

End RunFacts.

(** * Properties of a run *)

(** ** Contention and the lock *)

(** C8. When [Lock] answers "not acquired" without an error, the run returns
    the error "migration is already running"; the [Lock] call is the only call
    it makes (no storage operation, no migration function, no [Unlock]) and
    the state it leaves is the state [Lock] left. *)
Theorem C8_contention_aborts_untouched {St : Type} (nowRFC3339 : St -> string)
    (m : MigrationManager St) (st : St) :
  fst (Lock (lockProvider m) lockKey lockTimeout st) = (false, None) ->
  observe nowRFC3339 m st
  = (Some (errorString "migration is already running"),
     snd (Lock (lockProvider m) lockKey lockTimeout st),
     [CallLock lockKey lockTimeout false None]).
Proof.
  intros Hl. unfold observe, RunMigrations, bind, record.
  destruct m as [s l items]; simpl in *.
  destruct (Lock l lockKey lockTimeout st) as [[locked err] st1].
  simpl in Hl. injection Hl as -> ->. reflexivity.
Qed.

Lemma C8_witness :
  fst (Lock RedisLockProvider lockKey lockTimeout Demo.heldWorld) = (false, None)
  /\ Demo.run Demo.abc Demo.heldWorld
     = (Some (errorString "migration is already running"),
        Demo.heldWorld,
        [CallLock "migrate_lock" 60 false None]).
Proof.
  split; [vm_compute; reflexivity|].
  exact (C8_contention_aborts_untouched Demo.now (Demo.manager Demo.abc)
           Demo.heldWorld eq_refl).
Defined.

(** C9. A run that acquires the lock calls [Unlock] on the lock key exactly
    once, as its last call, however it ends. *)
Theorem C9_unlock_exactly_once {St : Type} (nowRFC3339 : St -> string)
    (m : MigrationManager St) (st : St) :
  fst (Lock (lockProvider m) lockKey lockTimeout st) = (true, None) ->
  countWhere isUnlock (trace (observe nowRFC3339 m st)) = 1
  /\ exists u, last (trace (observe nowRFC3339 m st)) = Some (CallUnlock lockKey u).
Proof.
  intros Hl. destruct (observe_spec nowRFC3339 m st) as (rest & Heq & Htr & _).
  rewrite Hl in *. simpl in *. unfold trace. rewrite Heq. simpl.
  by apply RunTrace_unlocks in Htr.
Qed.

Lemma C9_witness :
  fst (Lock RedisLockProvider lockKey lockTimeout Demo.deployed) = (true, None)
  /\ countWhere isUnlock (trace (Demo.run Demo.abc Demo.deployed)) = 1
  /\ exists u, last (trace (Demo.run Demo.abc Demo.deployed))
               = Some (CallUnlock lockKey u).
Proof.
  split; [vm_compute; reflexivity|].
  exact (C9_unlock_exactly_once Demo.now (Demo.manager Demo.abc)
           Demo.deployed eq_refl).
Defined.

(** The five ways a run that holds the lock can end, on the default
    backends: completion, history that does not load, a skip record that
    cannot be written, a failing migration, an applied record that cannot be
    written.  Each ends with the [Unlock] call. *)
Example unlock_on_every_path :
  let reset := errorString "connection reset" in
  let ends run := (result run, last (trace run)) in
  ends (Demo.run Demo.tenant Demo.emptyWorld)
  = (None, Some (CallUnlock lockKey None))
  /\ ends (Demo.run Demo.tenant (Demo.withHistory [] [Some reset]))
     = (Some (Errorf_w "failed to get applied migrations: " reset),
        Some (CallUnlock lockKey None))
  /\ ends (Demo.run Demo.tenant (Demo.withHistory [] [None; None; Some reset]))
     = (Some (Errorf_w "failed to mark migration tenantX:m1 as skipped: " reset),
        Some (CallUnlock lockKey None))
  /\ ends (Demo.run Demo.abc Demo.deployed)
     = (Some (Errorf_w "migration app:B failed: " (errorString "boom")),
        Some (CallUnlock lockKey None))
  /\ ends (Demo.run Demo.abc
             (Demo.withHistory [Demo.row 1 "app" "init" true EmptyString]
                [None; None; Some reset]))
     = (Some (Errorf_w "failed to mark migration app:A as applied: " reset),
        Some (CallUnlock lockKey None)).
Proof. repeat split; vm_compute; reflexivity. Qed.

(** ** Failure of a migration *)



(** C10. When the function of a key fails with [e] and the
    [MarkMigrationFailed] call that follows itself returns an error [e'], the
    run drops [e']: it returns the failure of the migration, which wraps [e]
    and not [e'].  That call is the only [MarkMigrationFailed] call of the run
    and only the deferred [Unlock] follows it: nothing is tried again, so the
    attempt keeps no record beyond what the failed call left. *)
Theorem C10_markFailed_error_discarded {St : Type} (nowRFC3339 : St -> string)
    (m : MigrationManager St) (st : St) (j : nat) (namespace name : string)
    (given left : Migration) (e e' : error) (errorMsg : string) :
  let run := observe nowRFC3339 m st in
  In (CallFunc j namespace name given left (Some e)) (trace run) ->
  In (CallMarkMigrationFailed namespace name errorMsg (Some e')) (trace run) ->
  result run = Some (Errorf_w ("migration " +:+ namespace +:+ ":" +:+ name
                               +:+ " failed: ") e)
  /\ (result run ≫= Unwrap) = Some e
  /\ exists pre u,
       trace run
       = (pre ++ [CallFunc j namespace name given left (Some e);
                  CallMarkMigrationFailed namespace name (failureText e left)
                    (Some e');
                  CallUnlock lockKey u])%list
       /\ countWhere isMarkFailed pre = 0.
Proof.
  intros run Hin Hmark.
  pose proof (observe_RunTrace nowRFC3339 m st) as Hrun. fold run in Hrun.
  destruct (RunTrace_failure _ _ _ Hrun _ _ _ _ _ _ Hin)
    as (pre & stored & u & Htr & _ & Hpre & Hr).
  split; [exact Hr|]. split; [by rewrite Hr|].
  exists pre, u. split; [|exact Hpre].
  rewrite Htr in Hmark.
  apply in_app_or in Hmark as [Hmark|[[=]|[[= _ <-]|[[=]|[]]]]].
  - by apply (countWhere_zero_In _ _ _ Hpre) in Hmark.
  - exact Htr.
Qed.

Lemma C10_witness :
  In (CallFunc 1 "app" "B" Demo.givenB Demo.leftB (Some (errorString "boom")))
    (trace (Demo.run Demo.abc Demo.flaky))
  /\ In (CallMarkMigrationFailed "app" "B"
           (failureText (errorString "boom") Demo.leftB)
           (Some (errorString "connection reset")))
       (trace (Demo.run Demo.abc Demo.flaky))
  /\ result (Demo.run Demo.abc Demo.flaky)
     = Some (wrapError "migration app:B failed: boom" (errorString "boom")).
Proof.
  assert (In (CallFunc 1 "app" "B" Demo.givenB Demo.leftB
                (Some (errorString "boom")))
            (trace (Demo.run Demo.abc Demo.flaky))) as Hin.
  { vm_compute. do 4 right. left. reflexivity. }
  assert (In (CallMarkMigrationFailed "app" "B"
                (failureText (errorString "boom") Demo.leftB)
                (Some (errorString "connection reset")))
            (trace (Demo.run Demo.abc Demo.flaky))) as Hmark.
  { vm_compute. do 5 right. left. reflexivity. }
  split; [exact Hin|]. split; [exact Hmark|].
  exact (proj1 (C10_markFailed_error_discarded Demo.now (Demo.manager Demo.abc)
                  Demo.flaky 1 "app" "B" Demo.givenB Demo.leftB
                  (errorString "boom") (errorString "connection reset")
                  (failureText (errorString "boom") Demo.leftB) Hin Hmark)).
Defined.

(** With the default store, the failed attempt of that run has no row. *)
Example flaky_attempt_unrecorded :
  migration_logs (final (Demo.run Demo.abc Demo.flaky))
  = [Demo.row 1 "app" "init" true EmptyString;
     {| MigrationLog.ID := 2; MigrationLog.Migration := "A";
        MigrationLog.Namespace := "app"; MigrationLog.AppliedAt := 1714557600;
        MigrationLog.Logs := EmptyString; MigrationLog.Success := true |}].
Proof. vm_compute. reflexivity. Qed.

(** ** History *)

(** C5. When the table at the start of a run holds a row with [success = true]
    for a key, the run never invokes the function registered under that key,
    whatever other rows the key has. *)
Theorem C5_applied_key_never_invoked {App : Type} (formatRFC3339 : Z -> string)
    (items : list (MigrationItem (World App))) (w : World App)
    (row : MigrationLog.t) (namespace name : string) :
  In row (migration_logs w) ->
  MigrationLog.Success row = true ->
  compositeKey (MigrationLog.Namespace row) (MigrationLog.Migration row)
  = compositeKey namespace name ->
  forall j given left err,
    ~ In (CallFunc j namespace name given left err)
        (trace (observeDefault formatRFC3339 items w)).
Proof.
  intros Hrow Hok Hkey j given lft err Hin.
  unfold observeDefault in Hin.
  destruct (observe_spec (fun w => formatRFC3339 (unixNow w))
              {| storage := DefaultDatabaseMigrationStorage;
                 lockProvider := RedisLockProvider;
                 migrations := items |} w)
    as (rest & Heq & Hrun & Hnames).
  cbn [lockProvider storage migrations] in Heq, Hrun, Hnames.
  unfold trace in Hin. rewrite Heq in Hin. cbn [snd] in Hin.
  destruct (RunTrace_invoked _ _ _ Hrun _ _ _ _ _ _ Hin)
    as (names & evs1 & a' & evs2 & u & Htr & Hboot & Hexec & Hin2).
  injection Htr as _ _ Hrest.
  apply Hnames, GetAppliedMigrations_names in Hrest.
  rewrite Lock_rows in Hrest.
  destruct (ExecTrace_invoked _ _ _ _ _ Hexec _ _ _ _ _ _ Hin2) as (Ha & _).
  assert (index a' (compositeKey namespace name) = true) as Ha'.
  { eapply BootTrace_grows; [exact Hboot|].
    apply appliedSetOf_spec. rewrite Hrest, <- Hkey. unfold appliedKeys.
    apply in_map_iff. exists row. split; [done|]. by apply filter_In. }
  congruence.
Qed.

Lemma C5_witness :
  In (Demo.row 3 "app" "B" true EmptyString) (migration_logs Demo.retried)
  /\ forall j given left err,
       ~ In (CallFunc j "app" "B" given left err)
           (trace (Demo.run Demo.abc Demo.retried)).
Proof.
  assert (In (Demo.row 3 "app" "B" true EmptyString)
            (migration_logs Demo.retried)) as Hrow.
  { simpl. right. right. left. reflexivity. }
  split; [exact Hrow|].
  exact (C5_applied_key_never_invoked Demo.stamp Demo.abc Demo.retried
           (Demo.row 3 "app" "B" true EmptyString) "app" "B"
           Hrow eq_refl eq_refl).
Defined.

(** ** Runs with nothing left to do *)

Section Idle.

Context {St : Type}.
Implicit Types (item : MigrationItem St) (items : list (MigrationItem St)).



End Idle.


Section DefaultRuns.

Context {App : Type}.
Variable formatRFC3339 : Z -> string.
Implicit Types (w : World App) (items : list (MigrationItem (World App))).



End DefaultRuns.

(** ** Idempotence *)



(** ** The record of a failure *)







(** ** Namespaces with records *)




(** ** Where the code departs from its specification *)

(** C1. In a namespace without records the bootstrap loop skips the first
    registered item only: marking it sets the flag of the namespace (line
    263), so the second item fails the test of line 257 and its function is
    invoked by the execution loop. *)
Theorem C1_only_first_item_is_skipped :
  trace (Demo.run Demo.tenant Demo.emptyWorld)
  = [CallLock "migrate_lock" 60 true None;
     CallGetAppliedMigrations [] None;
     CallMarkMigrationSkipped "tenantX" "m1" None;
     CallFunc 1 "tenantX" "m2"
       {| logStrings := [startMarker "tenantX" "m2" (Demo.stamp 1714557600)] |}
       {| logStrings := [startMarker "tenantX" "m2" (Demo.stamp 1714557600);
                         "altered table"] |} None;
     CallMarkMigrationApplied "tenantX" "m2" None;
     CallUnlock "migrate_lock" None]
  /\ map summary (migration_logs (final (Demo.run Demo.tenant Demo.emptyWorld)))
     = [("tenantX", "m1", true, "skip"); ("tenantX", "m2", true, EmptyString)].
Proof. split; vm_compute; reflexivity. Qed.

(** C2. The execution loop never adds a key to the applied set (the bootstrap
    loop does, line 262): when a key is registered twice in a namespace that
    has records, its function is invoked twice in one run and two applied
    records are written. *)
Theorem C2_duplicate_registration_runs_twice :
  countWhere (isFuncOf "app" "m1") (trace (Demo.run Demo.twice Demo.deployed)) = 2
  /\ map summary (migration_logs (final (Demo.run Demo.twice Demo.deployed)))
     = [("app", "init", true, EmptyString); ("app", "m1", true, EmptyString);
        ("app", "m1", true, EmptyString)].
Proof. split; vm_compute; reflexivity. Qed.

(** * Further properties of the package *)

(** ** More facts about the traces of the loops *)

Section MoreTraceFacts.

Context {St : Type}.
Implicit Types (item : MigrationItem St) (items : list (MigrationItem St)).
Implicit Types (a n : gmap string bool).

Lemma BootTrace_no_invocation items a n evs r a' :
  BootTrace items a n evs r a' -> omap invokedAt evs = [].
Proof. induction 1; done. Qed.

Lemma ExecTrace_positions i items a evs r :
  ExecTrace i items a evs r ->
  StronglySorted lt (omap invokedAt evs)
  /\ Forall (fun j => i <= j < i + length items) (omap invokedAt evs).
Proof.
  induction 1 as [i a|i item rest a evs r Ha H IH|i item rest a t lft e stored Ha
                 |i item rest a t lft e Ha|i item rest a t lft evs r Ha H IH];
    simpl.
  - split; constructor.
  - destruct IH as [Hs Hb]. split; [done|].
    eapply Forall_impl; [exact Hb|]. simpl. lia.
  - split; repeat constructor; lia.
  - split; repeat constructor; lia.
  - destruct IH as [Hs Hb]. split.
    + constructor; [exact Hs|]. eapply Forall_impl; [exact Hb|]. simpl. lia.
    + constructor; [lia|]. eapply Forall_impl; [exact Hb|]. simpl. lia.
Qed.

Lemma ExecTrace_no_skip i items a evs r :
  ExecTrace i items a evs r -> forall ev, In ev evs -> isSkip ev = false.
Proof.
  induction 1; intros ev Hin; simpl in Hin.
  - done.
  - auto.
  - by destruct Hin as [<-|[<-|[]]].
  - by destruct Hin as [<-|[<-|[]]].
  - destruct Hin as [<-|[<-|Hin]]; auto.
Qed.

Lemma ExecTrace_no_history i items a evs r :
  ExecTrace i items a evs r ->
  forall names e, ~ In (CallGetAppliedMigrations names e) evs.
Proof.
  induction 1; intros names e0 Hin; simpl in Hin.
  - done.
  - by eapply IHExecTrace.
  - by destruct Hin as [[=]|[[=]|[]]].
  - by destruct Hin as [[=]|[[=]|[]]].
  - destruct Hin as [[=]|[[=]|Hin]]. by eapply IHExecTrace.
Qed.

(** A skip record that cannot be written is the last call of the loop. *)
Lemma BootTrace_abort items a n evs r a' :
  BootTrace items a n evs r a' ->
  forall namespace name e,
    In (CallMarkMigrationSkipped namespace name (Some e)) evs ->
    exists pre,
      evs = (pre ++ [CallMarkMigrationSkipped namespace name (Some e)])%list
      /\ r = Some (Errorf_w ("failed to mark migration "
                             +:+ compositeKey namespace name
                             +:+ " as skipped: ") e).
Proof.
  induction 1; intros namespace name e0 Hin; simpl in Hin.
  - done.
  - eauto.
  - destruct Hin as [[=]|Hin].
    destruct (IHBootTrace _ _ _ Hin) as (pre & -> & ->).
    by eexists (_ :: pre).
  - destruct Hin as [[= <- <- <-]|[]]. by exists [].
Qed.

Lemma BootTrace_result items a n evs r a' :
  BootTrace items a n evs r a' ->
  r = None <-> forallb wentThrough evs = true.
Proof.
  induction 1; simpl; try tauto.
  split; done.
Qed.

Lemma ExecTrace_result i items a evs r :
  ExecTrace i items a evs r ->
  r = None <-> forallb wentThrough evs = true.
Proof.
  induction 1; simpl; try tauto.
  - split; done.
  - split; done.
Qed.

(** An applied record that cannot be written comes right after the
    successful invocation it belongs to and ends the loop. *)
Lemma ExecTrace_unmarked i items a evs r :
  ExecTrace i items a evs r ->
  forall namespace name e,
    In (CallMarkMigrationApplied namespace name (Some e)) evs ->
    exists pre j given left,
      evs = (pre ++ [CallFunc j namespace name given left None;
                     CallMarkMigrationApplied namespace name (Some e)])%list
      /\ r = Some (Errorf_w ("failed to mark migration " +:+ namespace +:+ ":"
                             +:+ name +:+ " as applied: ") e).
Proof.
  induction 1; intros namespace name e0 Hin; simpl in Hin.
  - done.
  - eauto.
  - destruct Hin as [[=]|[[=]|[]]].
  - destruct Hin as [[=]|[[= <- <- <-]|[]]].
    by exists [], i, (started item t), left.
  - destruct Hin as [[=]|[[=]|Hin]].
    destruct (IHExecTrace _ _ _ Hin) as (pre & j & given & lft & -> & ->).
    by eexists (_ :: _ :: pre), j, given, lft.
Qed.


End MoreTraceFacts.

(** ** What a run invokes, and in which order *)

Section RunOrder.

Context {St : Type}.
Variable nowRFC3339 : St -> string.

Lemma RunTrace_positions (items : list (MigrationItem St)) tr r :
  RunTrace items tr r ->
  StronglySorted lt (omap invokedAt tr)
  /\ Forall (fun j => j < length items) (omap invokedAt tr).
Proof.
  destruct 1 as [locked e| |names e u|names evs e a' u Hb
                |names evs1 a' evs2 r u Hb He]; simpl;
    try (split; constructor).
  - rewrite omap_app, (BootTrace_no_invocation _ _ _ _ _ _ Hb). simpl.
    split; constructor.
  - rewrite !omap_app, (BootTrace_no_invocation _ _ _ _ _ _ Hb). simpl.
    rewrite app_nil_r.
    destruct (ExecTrace_positions _ _ _ _ _ He) as [Hs Hf].
    split; [exact Hs|]. eapply Forall_impl; [exact Hf|]. simpl. lia.
Qed.

End RunOrder.

(** X1. Functions are invoked in registration order: the registry positions
    of the invocations of a run, in the order they happen, are strictly
    increasing (so no registration is invoked twice) and are positions of the
    registry. *)
Theorem X1_invocations_follow_registration_order {St : Type}
    (nowRFC3339 : St -> string) (m : MigrationManager St) (st : St) :
  StronglySorted lt (omap invokedAt (trace (observe nowRFC3339 m st)))
  /\ Forall (fun j => j < length (migrations m))
       (omap invokedAt (trace (observe nowRFC3339 m st))).
Proof.
  apply RunTrace_positions with (r := result (observe nowRFC3339 m st)).
  apply observe_RunTrace.
Qed.

(** X2. Every invocation is of the item registered at its position, under
    that item's namespace and name; the function is handed a new context that
    holds the start marker of this migration and nothing else; and its key is
    not among the keys the store reported as applied. *)
Theorem X2_invocation_of_registered_item {St : Type}
    (nowRFC3339 : St -> string) (m : MigrationManager St) (st : St)
    (j : nat) (namespace name : string) (given left : Migration)
    (err : option error) :
  In (CallFunc j namespace name given left err)
    (trace (observe nowRFC3339 m st)) ->
  (exists item t,
     migrations m !! j = Some item
     /\ Namespace item = namespace /\ Name item = name
     /\ given = {| logStrings := [startMarker namespace name t] |})
  /\ (forall names e,
        In (CallGetAppliedMigrations names e) (trace (observe nowRFC3339 m st)) ->
        ~ In (compositeKey namespace name) names).
Proof.
  intros Hin.
  pose proof (observe_RunTrace nowRFC3339 m st) as Hrun.
  destruct (RunTrace_invoked _ _ _ Hrun _ _ _ _ _ _ Hin)
    as (names & evs1 & a' & evs2 & u & Htr & Hboot & Hexec & Hin2).
  destruct (ExecTrace_invoked _ _ _ _ _ Hexec _ _ _ _ _ _ Hin2)
    as (Ha & _ & item & t & Hitem & Hns & Hname & Hgiven).
  split.
  - exists item, t. rewrite Nat.sub_0_r in Hitem.
    split; [exact Hitem|]. split; [exact Hns|]. split; [exact Hname|].
    rewrite Hgiven. unfold started, Log. simpl. by rewrite Hns, Hname.
  - intros names' e Hget Hkey. rewrite Htr in Hget.
    destruct Hget as [[=]|[[= <- <-]|Hget]].
    + assert (index a' (compositeKey namespace name) = true); [|congruence].
      eapply BootTrace_grows; [exact Hboot|]. by apply appliedSetOf_spec.
    + apply in_app_or in Hget as [Hget|Hget].
      { by destruct (BootTrace_only_skips _ _ _ _ _ _ Hboot _ Hget)
          as (? & ? & ? & [=]). }
      apply in_app_or in Hget as [Hget|[[=]|[]]].
      by apply (ExecTrace_no_history _ _ _ _ _ Hexec) in Hget.
Qed.

Lemma X2_witness :
  In (CallFunc 1 "app" "B" Demo.givenB Demo.leftB (Some (errorString "boom")))
    (trace (Demo.run Demo.abc Demo.deployed))
  /\ exists item t,
       Demo.abc !! 1 = Some item
       /\ Namespace item = "app" /\ Name item = "B"
       /\ Demo.givenB = {| logStrings := [startMarker "app" "B" t] |}.
Proof.
  assert (In (CallFunc 1 "app" "B" Demo.givenB Demo.leftB
                (Some (errorString "boom")))
            (trace (Demo.run Demo.abc Demo.deployed))) as Hin.
  { vm_compute. do 4 right. left. reflexivity. }
  split; [exact Hin|].
  exact (proj1 (X2_invocation_of_registered_item Demo.now
                  (Demo.manager Demo.abc) Demo.deployed 1 "app" "B"
                  Demo.givenB Demo.leftB (Some (errorString "boom")) Hin)).
Defined.

(** X3. A key that the bootstrap loop marked as skipped is not invoked in the
    same run, under whichever registration. *)
Theorem X3_skipped_key_is_not_invoked {St : Type}
    (nowRFC3339 : St -> string) (m : MigrationManager St) (st : St)
    (namespace name : string) :
  In (CallMarkMigrationSkipped namespace name None)
    (trace (observe nowRFC3339 m st)) ->
  forall j namespace' name' given left err,
    In (CallFunc j namespace' name' given left err)
      (trace (observe nowRFC3339 m st)) ->
    compositeKey namespace' name' <> compositeKey namespace name.
Proof.
  intros Hskip j ns' name' given lft err Hin Hkey.
  pose proof (observe_RunTrace nowRFC3339 m st) as Hrun.
  destruct (RunTrace_invoked _ _ _ Hrun _ _ _ _ _ _ Hin)
    as (names & evs1 & a' & evs2 & u & Htr & Hboot & Hexec & Hin2).
  destruct (ExecTrace_invoked _ _ _ _ _ Hexec _ _ _ _ _ _ Hin2) as (Ha & _).
  rewrite Htr in Hskip. destruct Hskip as [[=]|[[=]|Hskip]].
  apply in_app_or in Hskip as [Hskip|Hskip].
  - pose proof (BootTrace_skipped_applied _ _ _ _ _ _ Hboot _ _ Hskip).
    congruence.
  - apply in_app_or in Hskip as [Hskip|[[=]|[]]].
    by apply (ExecTrace_no_skip _ _ _ _ _ Hexec) in Hskip.
Qed.

Lemma X3_witness :
  In (CallMarkMigrationSkipped "tenantX" "m1" None)
    (trace (Demo.run Demo.tenant Demo.emptyWorld))
  /\ forall j given left err,
       ~ In (CallFunc j "tenantX" "m1" given left err)
           (trace (Demo.run Demo.tenant Demo.emptyWorld)).
Proof.
  assert (In (CallMarkMigrationSkipped "tenantX" "m1" None)
            (trace (Demo.run Demo.tenant Demo.emptyWorld))) as Hskip.
  { vm_compute. do 2 right. left. reflexivity. }
  split; [exact Hskip|].
  intros j given lft err Hin.
  exact (X3_skipped_key_is_not_invoked Demo.now (Demo.manager Demo.tenant)
           Demo.emptyWorld "tenantX" "m1" Hskip j "tenantX" "m1" given lft err
           Hin eq_refl).
Defined.

(** ** The ways a run fails *)

(** X4. When [Lock] itself returns an error, the run returns it wrapped as
    "failed to acquire migration lock", whatever [Lock] said about having the
    lock; the [Lock] call is the only call made: the store is not read, no
    function is invoked and [Unlock] is not called. *)
Theorem X4_lock_error_aborts {St : Type} (nowRFC3339 : St -> string)
    (m : MigrationManager St) (st : St) (locked : bool) (e : error) :
  fst (Lock (lockProvider m) lockKey lockTimeout st) = (locked, Some e) ->
  observe nowRFC3339 m st
  = (Some (Errorf_w "failed to acquire migration lock: " e),
     snd (Lock (lockProvider m) lockKey lockTimeout st),
     [CallLock lockKey lockTimeout locked (Some e)]).
Proof.
  intros Hl. unfold observe, RunMigrations, bind, record.
  destruct m as [s l items]; simpl in *.
  destruct (Lock l lockKey lockTimeout st) as [[locked' err] st1].
  simpl in Hl. injection Hl as -> ->. reflexivity.
Qed.

Lemma X4_witness :
  fst (Lock RedisLockProvider lockKey lockTimeout Sample.redisDown)
  = (false, Some (errorString "dial tcp: connection refused"))
  /\ result (Demo.run Demo.abc Sample.redisDown)
     = Some (wrapError
               "failed to acquire migration lock: dial tcp: connection refused"
               (errorString "dial tcp: connection refused"))
  /\ trace (Demo.run Demo.abc Sample.redisDown)
     = [CallLock lockKey lockTimeout false
          (Some (errorString "dial tcp: connection refused"))].
Proof.
  split; [vm_compute; reflexivity|].
  pose proof (X4_lock_error_aborts Demo.now (Demo.manager Demo.abc)
                Sample.redisDown false
                (errorString "dial tcp: connection refused") eq_refl) as H.
  change (observe Demo.now (Demo.manager Demo.abc) Sample.redisDown)
    with (Demo.run Demo.abc Sample.redisDown) in H.
  rewrite H. split; reflexivity.
Defined.

(** X5. When the history cannot be loaded, the run returns the error wrapped
    as "failed to get applied migrations"; it has made three calls, [Lock],
    [GetAppliedMigrations] and the deferred [Unlock]: nothing is written and
    no function is invoked. *)
Theorem X5_history_error_aborts {St : Type} (nowRFC3339 : St -> string)
    (m : MigrationManager St) (st : St) (names : list string) (e : error) :
  let st1 := snd (Lock (lockProvider m) lockKey lockTimeout st) in
  let st2 := snd (GetAppliedMigrations (storage m) st1) in
  fst (Lock (lockProvider m) lockKey lockTimeout st) = (true, None) ->
  fst (GetAppliedMigrations (storage m) st1) = (names, Some e) ->
  observe nowRFC3339 m st
  = (Some (Errorf_w "failed to get applied migrations: " e),
     snd (Unlock (lockProvider m) lockKey st2),
     [CallLock lockKey lockTimeout true None;
      CallGetAppliedMigrations names (Some e);
      CallUnlock lockKey (fst (Unlock (lockProvider m) lockKey st2))]).
Proof.
  intros st1 st2 Hl Hg. subst st1 st2.
  unfold observe, RunMigrations, runLocked, bind, record.
  destruct m as [s l items]; simpl in *.
  destruct (Lock l lockKey lockTimeout st) as [[locked err] st1].
  simpl in Hl, Hg |- *. injection Hl as -> ->. simpl.
  destruct (GetAppliedMigrations s st1) as [[names' err] st2].
  simpl in Hg |- *. injection Hg as -> ->. simpl.
  by destruct (Unlock l lockKey st2).
Qed.

Lemma X5_witness :
  fst (Lock RedisLockProvider lockKey lockTimeout Sample.dbDown) = (true, None)
  /\ result (Demo.run Demo.abc Sample.dbDown)
     = Some (wrapError "failed to get applied migrations: connection reset"
               (errorString "connection reset"))
  /\ trace (Demo.run Demo.abc Sample.dbDown)
     = [CallLock lockKey lockTimeout true None;
        CallGetAppliedMigrations [] (Some (errorString "connection reset"));
        CallUnlock lockKey None].
Proof.
  split; [vm_compute; reflexivity|].
  pose proof (X5_history_error_aborts Demo.now (Demo.manager Demo.abc)
                Sample.dbDown [] (errorString "connection reset")
                eq_refl eq_refl) as H.
  change (observe Demo.now (Demo.manager Demo.abc) Sample.dbDown)
    with (Demo.run Demo.abc Sample.dbDown) in H.
  rewrite H. split; vm_compute; reflexivity.
Defined.

(** X6. When a skip record cannot be written, the run stops in the bootstrap
    loop: it returns the error wrapped with the key, [Unlock] is the only call
    after the failed one, and no migration function has been invoked. *)
Theorem X6_skip_error_aborts_before_any_invocation {St : Type}
    (nowRFC3339 : St -> string) (m : MigrationManager St) (st : St)
    (namespace name : string) (e : error) :
  In (CallMarkMigrationSkipped namespace name (Some e))
    (trace (observe nowRFC3339 m st)) ->
  result (observe nowRFC3339 m st)
  = Some (Errorf_w ("failed to mark migration " +:+ compositeKey namespace name
                    +:+ " as skipped: ") e)
  /\ countWhere isFunc (trace (observe nowRFC3339 m st)) = 0
  /\ exists pre u,
       trace (observe nowRFC3339 m st)
       = (pre ++ [CallMarkMigrationSkipped namespace name (Some e);
                  CallUnlock lockKey u])%list.
Proof.
  intros Hin.
  pose proof (observe_RunTrace nowRFC3339 m st) as Hrun.
  destruct (observe_spec nowRFC3339 m st) as (rest & Heq & _ & _).
  unfold trace, result in *. rewrite Heq in Hin, Hrun |- *.
  cbn [fst snd] in Hin, Hrun |- *.
  apply RunTrace_cases in Hrun
    as [[-> _]|[(names & e' & u & -> & _)
       |[(names & evs & e' & a' & u & -> & Hboot & Hr)
        |(names & evs1 & a' & evs2 & u & -> & Hboot & Hexec)]]].
  - by destruct Hin as [[=]|[]].
  - by destruct Hin as [[=]|[[=]|[[=]|[]]]].
  - destruct Hin as [[=]|[[=]|Hin]].
    apply in_app_or in Hin as [Hin|[[=]|[]]].
    destruct (BootTrace_abort _ _ _ _ _ _ Hboot _ _ _ Hin) as (pre & -> & He).
    split; [congruence|]. split.
    + apply countWhere_none. intros ev [<-|[<-|Hev]]; [done..|].
      apply in_app_or in Hev as [Hev|[<-|[]]]; [|done].
      by destruct (BootTrace_only_skips _ _ _ _ _ _ Hboot _ Hev)
        as (? & ? & ? & ->).
    + eexists (_ :: _ :: pre), u. simpl. by rewrite <- app_assoc.
  - destruct Hin as [[=]|[[=]|Hin]].
    apply in_app_or in Hin as [Hin|Hin].
    + by destruct (BootTrace_abort _ _ _ _ _ _ Hboot _ _ _ Hin) as (? & _ & [=]).
    + apply in_app_or in Hin as [Hin|[[=]|[]]].
      by apply (ExecTrace_no_skip _ _ _ _ _ Hexec) in Hin.
Qed.

Lemma X6_witness :
  In (CallMarkMigrationSkipped "tenantX" "m1"
        (Some (errorString "connection reset")))
    (trace (Demo.run Demo.tenant Sample.skipFails))
  /\ result (Demo.run Demo.tenant Sample.skipFails)
     = Some (wrapError
               "failed to mark migration tenantX:m1 as skipped: connection reset"
               (errorString "connection reset"))
  /\ countWhere isFunc (trace (Demo.run Demo.tenant Sample.skipFails)) = 0.
Proof.
  assert (In (CallMarkMigrationSkipped "tenantX" "m1"
                (Some (errorString "connection reset")))
            (trace (Demo.run Demo.tenant Sample.skipFails))) as Hin.
  { vm_compute. do 2 right. left. reflexivity. }
  split; [exact Hin|].
  destruct (X6_skip_error_aborts_before_any_invocation Demo.now
              (Demo.manager Demo.tenant) Sample.skipFails "tenantX" "m1"
              (errorString "connection reset") Hin) as (Hr & Hc & _).
  split; [exact Hr | exact Hc].
Defined.

(** X7. When the applied record of a migration cannot be written, the
    function has already run and returned nil; the run returns the error
    wrapped with the namespace and name, and [Unlock] is the only call after
    the failed one: no later registration is invoked. *)
Theorem X7_markApplied_error_ends_the_run {St : Type}
    (nowRFC3339 : St -> string) (m : MigrationManager St) (st : St)
    (namespace name : string) (e : error) :
  In (CallMarkMigrationApplied namespace name (Some e))
    (trace (observe nowRFC3339 m st)) ->
  result (observe nowRFC3339 m st)
  = Some (Errorf_w ("failed to mark migration " +:+ namespace +:+ ":" +:+ name
                    +:+ " as applied: ") e)
  /\ exists pre j given left u,
       trace (observe nowRFC3339 m st)
       = (pre ++ [CallFunc j namespace name given left None;
                  CallMarkMigrationApplied namespace name (Some e);
                  CallUnlock lockKey u])%list.
Proof.
  intros Hin.
  pose proof (observe_RunTrace nowRFC3339 m st) as Hrun.
  destruct (observe_spec nowRFC3339 m st) as (rest & Heq & _ & _).
  unfold trace, result in *. rewrite Heq in Hin, Hrun |- *.
  cbn [fst snd] in Hin, Hrun |- *.
  apply RunTrace_cases in Hrun
    as [[-> _]|[(names & e' & u & -> & _)
       |[(names & evs & e' & a' & u & -> & Hboot & Hr)
        |(names & evs1 & a' & evs2 & u & -> & Hboot & Hexec)]]].
  - by destruct Hin as [[=]|[]].
  - by destruct Hin as [[=]|[[=]|[[=]|[]]]].
  - destruct Hin as [[=]|[[=]|Hin]].
    apply in_app_or in Hin as [Hin|[[=]|[]]].
    by destruct (BootTrace_only_skips _ _ _ _ _ _ Hboot _ Hin) as (? & ? & ? & [=]).
  - destruct Hin as [[=]|[[=]|Hin]].
    apply in_app_or in Hin as [Hin|Hin].
    { by destruct (BootTrace_only_skips _ _ _ _ _ _ Hboot _ Hin)
        as (? & ? & ? & [=]). }
    apply in_app_or in Hin as [Hin|[[=]|[]]].
    destruct (ExecTrace_unmarked _ _ _ _ _ Hexec _ _ _ Hin)
      as (pre & j & given & lft & -> & ->).
    split; [done|].
    eexists (_ :: _ :: evs1 ++ pre)%list, j, given, lft, u.
    simpl. by rewrite <- !app_assoc.
Qed.

Lemma X7_witness :
  In (CallMarkMigrationApplied "app" "A" (Some (errorString "connection reset")))
    (trace (Demo.run Demo.abc Sample.applyFails))
  /\ result (Demo.run Demo.abc Sample.applyFails)
     = Some (wrapError
               "failed to mark migration app:A as applied: connection reset"
               (errorString "connection reset")).
Proof.
  assert (In (CallMarkMigrationApplied "app" "A"
                (Some (errorString "connection reset")))
            (trace (Demo.run Demo.abc Sample.applyFails))) as Hin.
  { vm_compute. do 3 right. left. reflexivity. }
  split; [exact Hin|].
  exact (proj1 (X7_markApplied_error_ends_the_run Demo.now
                  (Demo.manager Demo.abc) Sample.applyFails "app" "A"
                  (errorString "connection reset") Hin)).
Defined.

(** X8. A run returns nil exactly when the lock was acquired and every call
    it made to the store and every function it invoked returned nil.  The
    error of [Unlock] plays no part: it is dropped. *)
Theorem X8_nil_exactly_when_every_call_went_through {St : Type}
    (nowRFC3339 : St -> string) (m : MigrationManager St) (st : St) :
  result (observe nowRFC3339 m st) = None
  <-> forallb wentThrough (trace (observe nowRFC3339 m st)) = true.
Proof.
  pose proof (observe_RunTrace nowRFC3339 m st) as Hrun.
  destruct Hrun as [locked e| |names e u|names evs e a' u Hb
                   |names evs1 a' evs2 r u Hb He]; simpl.
  - rewrite andb_false_r. split; done.
  - split; done.
  - split; done.
  - rewrite forallb_app. simpl. rewrite andb_true_r.
    rewrite <- (BootTrace_result _ _ _ _ _ _ Hb). split; done.
  - rewrite !forallb_app. simpl. rewrite andb_true_r.
    apply BootTrace_result in Hb. apply ExecTrace_result in He.
    destruct Hb as [Hb _]. rewrite (Hb eq_refl). simpl. exact He.
Qed.


(** ** The state after a run *)

Section Invariants.

Context {St : Type}.
Variable nowRFC3339 : St -> string.
Variable P : St -> Prop.

Lemma bootstrapLoop_invariant (s : MigrationStorage St) items : forall a n st,
  (forall namespace name st,
     P st -> P (snd (MarkMigrationSkipped s namespace name st))) ->
  P st -> P (snd (bootstrapLoop s items a n st)).
Proof.
  induction items as [|item rest IH]; intros a n st Hskip Hst; simpl.
  - exact Hst.
  - destruct (negb (index n (Namespace item)) && _); [|by apply IH].
    unfold bind.
    pose proof (Hskip (Namespace item) (Name item) st Hst) as Hst1.
    destruct (MarkMigrationSkipped s (Namespace item) (Name item) st)
      as [[e|] st1]; simpl in *; [done | by apply IH].
Qed.

Lemma executeLoop_invariant (s : MigrationStorage St) items : forall a st,
  (forall namespace name st,
     P st -> P (snd (MarkMigrationApplied s namespace name st))) ->
  (forall namespace name errorMsg st,
     P st -> P (snd (MarkMigrationFailed s namespace name errorMsg st))) ->
  Forall (fun item => forall migration st,
            P st -> P (snd (Func item migration st))) items ->
  P st -> P (snd (executeLoop nowRFC3339 s items a st)).
Proof.
  induction items as [|item rest IH]; intros a st Happ Hfail Hf Hst; simpl.
  - exact Hst.
  - apply Forall_cons in Hf as [Hitem Hf].
    destruct (index a _); [by apply IH|].
    unfold bind, gets; simpl.
    specialize (Hitem (Log {| logStrings := [] |}
                         (startMarker (Namespace item) (Name item)
                            (nowRFC3339 st))) st Hst).
    destruct (Func item _ st) as [[lft [e|]] st1]; simpl in *.
    + pose proof (Hfail (Namespace item) (Name item) (failureText e lft)
                    st1 Hitem) as Hst2.
      by destruct (MarkMigrationFailed s _ _ _ st1).
    + pose proof (Happ (Namespace item) (Name item) st1 Hitem) as Hst2.
      destruct (MarkMigrationApplied s _ _ st1) as [[e|] st2]; simpl in *;
        [done | by apply IH].
Qed.

(** The manager reaches the state only through the lock provider, the store
    and the registered functions: what all of them preserve, a run
    preserves. *)
Lemma RunMigrations_invariant (m : MigrationManager St) (st : St) :
  (forall key seconds st, P st -> P (snd (Lock (lockProvider m) key seconds st))) ->
  (forall key st, P st -> P (snd (Unlock (lockProvider m) key st))) ->
  (forall st, P st -> P (snd (GetAppliedMigrations (storage m) st))) ->
  (forall namespace name st,
     P st -> P (snd (MarkMigrationApplied (storage m) namespace name st))) ->
  (forall namespace name errorMsg st,
     P st -> P (snd (MarkMigrationFailed (storage m) namespace name errorMsg st))) ->
  (forall namespace name st,
     P st -> P (snd (MarkMigrationSkipped (storage m) namespace name st))) ->
  Forall (fun item => forall migration st,
            P st -> P (snd (Func item migration st))) (migrations m) ->
  P st -> P (snd (RunMigrations nowRFC3339 m st)).
Proof.
  destruct m as [s l items]; simpl.
  intros Hlock Hunlock Hget Happ Hfail Hskip Hf Hst.
  unfold RunMigrations, bind, ret; simpl.
  pose proof (Hlock lockKey lockTimeout st Hst) as Hst1.
  destruct (Lock l lockKey lockTimeout st) as [[locked [e|]] st1];
    simpl in *; [done|].
  destruct locked; simpl; [|done].
  unfold runLocked, bind, ret; simpl.
  pose proof (Hget st1 Hst1) as Hst2.
  destruct (GetAppliedMigrations s st1) as [[names [e|]] st2]; simpl in *.
  { pose proof (Hunlock lockKey st2 Hst2). by destruct (Unlock l lockKey st2). }
  pose proof (bootstrapLoop_invariant s items (appliedSetOf names)
                (namespaceHasRecordsOf names) st2 Hskip Hst2) as Hb.
  destruct (bootstrapLoop s items _ _ st2) as [[[e|] a'] st3]; simpl in *.
  { pose proof (Hunlock lockKey st3 Hb). by destruct (Unlock l lockKey st3). }
  pose proof (executeLoop_invariant s items a' st3 Happ Hfail Hf Hb) as He.
  destruct (executeLoop nowRFC3339 s items a' st3) as [r st4]; simpl in *.
  pose proof (Hunlock lockKey st4 He). by destruct (Unlock l lockKey st4).
Qed.

(** A run that acquired the lock ends with the [Unlock] call: the state it
    leaves is the state that call left and the last event is that call. *)
Lemma observe_ends_with_Unlock (m : MigrationManager St) (st : St) :
  fst (Lock (lockProvider m) lockKey lockTimeout st) = (true, None) ->
  exists st',
    final (observe nowRFC3339 m st) = snd (Unlock (lockProvider m) lockKey st')
    /\ last (trace (observe nowRFC3339 m st))
       = Some (CallUnlock lockKey (fst (Unlock (lockProvider m) lockKey st'))).
Proof.
  destruct m as [s l items]; simpl. intros Hl.
  unfold observe, RunMigrations, bind, record; simpl.
  destruct (Lock l lockKey lockTimeout st) as [[locked err] st1].
  simpl in Hl. injection Hl as -> ->. simpl.
  unfold runLocked, bind, record; simpl.
  destruct (GetAppliedMigrations s st1) as [[names [e|]] st2]; simpl.
  { exists st2. by destruct (Unlock l lockKey st2). }
  destruct (bootstrapLoop_recorded s items 0 (appliedSetOf names)
              (namespaceHasRecordsOf names) st2
              [CallLock lockKey lockTimeout true None;
               CallGetAppliedMigrations names None])
    as (evs1 & -> & _).
  destruct (bootstrapLoop s items (appliedSetOf names)
              (namespaceHasRecordsOf names) st2)
    as [[[e|] a'] st3]; simpl.
  { exists st3. destruct (Unlock l lockKey st3). unfold final, trace. simpl.
    split; [done|]. by rewrite !app_comm_cons, last_snoc. }
  match goal with
  | |- context [executeLoop _ (recordStorage s) _ a' (st3, ?tr3)] =>
      destruct (executeLoop_recorded nowRFC3339 s items 0 a' st3 tr3)
        as (evs2 & -> & _)
  end.
  destruct (executeLoop nowRFC3339 s items a' st3) as [r st4]; simpl.
  exists st4. destruct (Unlock l lockKey st4). unfold final, trace. simpl.
  split; [done|]. by rewrite !app_comm_cons, last_snoc.
Qed.

(** A run that did not get the lock makes the [Lock] call and nothing else. *)
Lemma observe_not_acquired (m : MigrationManager St) (st : St) :
  fst (fst (Lock (lockProvider m) lockKey lockTimeout st)) = false ->
  final (observe nowRFC3339 m st)
  = snd (Lock (lockProvider m) lockKey lockTimeout st)
  /\ trace (observe nowRFC3339 m st)
     = [CallLock lockKey lockTimeout false
          (snd (fst (Lock (lockProvider m) lockKey lockTimeout st)))]
  /\ result (observe nowRFC3339 m st) <> None.
Proof.
  destruct m as [s l items]; simpl. intros Hl.
  unfold observe, RunMigrations, bind, record; simpl.
  destruct (Lock l lockKey lockTimeout st) as [[locked err] st1].
  simpl in Hl. subst locked. by destruct err.
Qed.

End Invariants.

(** ** The default store and the Redis lock *)

Section DefaultStoreFacts.

Context {App : Type}.
Implicit Types (w : World App).

(** A write appends at most one row and keeps every row there was. *)
Lemma MarkMigrationApplied_appends namespace name w :
  exists extra,
    migration_logs (snd (MarkMigrationApplied DefaultDatabaseMigrationStorage
                           namespace name w))
    = (migration_logs w ++ extra)%list.
Proof.
  unfold DefaultDatabaseMigrationStorage, MarkMigrationApplied, AutoMigrate,
    Create, bind, dbCall, gets, setRows, ret; simpl.
  destruct (nextFault (db_faults w)) as [[e|] rest]; simpl;
    [exists []; by rewrite app_nil_r|].
  destruct (nextFault rest) as [[e|] rest']; simpl;
    [exists []; by rewrite app_nil_r | by eexists].
Qed.

Lemma MarkMigrationFailed_appends namespace name errorMsg w :
  exists extra,
    migration_logs (snd (MarkMigrationFailed DefaultDatabaseMigrationStorage
                           namespace name errorMsg w))
    = (migration_logs w ++ extra)%list.
Proof.
  unfold DefaultDatabaseMigrationStorage, MarkMigrationFailed, AutoMigrate,
    Create, bind, dbCall, gets, setRows, ret; simpl.
  destruct (nextFault (db_faults w)) as [[e|] rest]; simpl;
    [exists []; by rewrite app_nil_r|].
  destruct (nextFault rest) as [[e|] rest']; simpl;
    [exists []; by rewrite app_nil_r | by eexists].
Qed.

Lemma MarkMigrationSkipped_appends namespace name w :
  exists extra,
    migration_logs (snd (MarkMigrationSkipped DefaultDatabaseMigrationStorage
                           namespace name w))
    = (migration_logs w ++ extra)%list.
Proof.
  unfold DefaultDatabaseMigrationStorage, MarkMigrationSkipped, AutoMigrate,
    Create, bind, dbCall, gets, setRows, ret; simpl.
  destruct (nextFault (db_faults w)) as [[e|] rest]; simpl;
    [exists []; by rewrite app_nil_r|].
  destruct (nextFault rest) as [[e|] rest']; simpl;
    [exists []; by rewrite app_nil_r | by eexists].
Qed.

Lemma appliedKeys_app (rows extra : list MigrationLog.t) :
  appliedKeys (rows ++ extra) = (appliedKeys rows ++ appliedKeys extra)%list.
Proof. unfold appliedKeys. by rewrite List.filter_app, map_app. Qed.

Lemma Unlock_releases key w :
  fst (Unlock RedisLockProvider key w) = None ->
  redis_keys (snd (Unlock RedisLockProvider key w)) !! key = None.
Proof.
  unfold RedisLockProvider, Unlock, bind, redisCall, gets, setKeys, ret; simpl.
  destruct (nextFault (redis_faults w)) as [[e|] rest]; simpl; [done|].
  intros _. apply lookup_delete_eq.
Qed.

Lemma Lock_free key seconds w :
  redis_keys w !! key = None ->
  fst (nextFault (redis_faults w)) = None ->
  fst (Lock RedisLockProvider key seconds w) = (true, None).
Proof.
  unfold RedisLockProvider, Lock, bind, redisCall, gets, setKeys, ret; simpl.
  intros Hk Hf.
  destruct (nextFault (redis_faults w)) as [[e|] rest]; simpl in *; [done|].
  by rewrite Hk.
Qed.

(** Once [Lock] has acquired a key, another [Lock] on it does not. *)
Lemma Lock_held key seconds seconds' w :
  fst (Lock RedisLockProvider key seconds w) = (true, None) ->
  fst (fst (Lock RedisLockProvider key seconds'
              (snd (Lock RedisLockProvider key seconds w)))) = false.
Proof.
  unfold RedisLockProvider, Lock, bind, redisCall, gets, setKeys, ret; simpl.
  destruct (nextFault (redis_faults w)) as [[e|] rest]; simpl; [done|].
  destruct (redis_keys w !! key) eqn:Hk; simpl; [done|]. intros _.
  destruct (nextFault rest) as [[e|] rest']; simpl; [done|].
  by rewrite lookup_insert_eq.
Qed.

Variable formatRFC3339 : Z -> string.

(** The table after a run: every row there was, then one row per recorded
    write that went through, in the order of the calls. *)
Lemma observeDefault_appends (items : list (MigrationItem (World App))) w :
  Forall keepsLog items ->
  exists added,
    migration_logs (final (observeDefault formatRFC3339 items w))
    = (migration_logs w ++ added)%list
    /\ map summary added
       = omap journal (trace (observeDefault formatRFC3339 items w)).
Proof.
  intros Hk.
  assert (exists added,
            migration_logs (final (observeDefault formatRFC3339 items w))
            = (migration_logs w ++ added)%list) as (added & Hadded).
  { unfold observeDefault.
    replace (final _)
      with (snd (RunMigrations (fun w => formatRFC3339 (unixNow w))
                   {| storage := DefaultDatabaseMigrationStorage;
                      lockProvider := RedisLockProvider;
                      migrations := items |} w))
      by (by rewrite <- observe_plain).
    apply (RunMigrations_invariant _
             (fun w' => exists added,
                migration_logs w' = (migration_logs w ++ added)%list));
      cbn [lockProvider storage migrations].
    - intros key seconds st (added & Hst). exists added. by rewrite Lock_rows.
    - intros key st (added & Hst). exists added. by rewrite Unlock_rows.
    - intros st (added & Hst). exists added.
      by rewrite GetAppliedMigrations_rows.
    - intros namespace name st (added & Hst).
      destruct (MarkMigrationApplied_appends namespace name st) as (extra & ->).
      exists (added ++ extra)%list. by rewrite Hst, app_assoc.
    - intros namespace name errorMsg st (added & Hst).
      destruct (MarkMigrationFailed_appends namespace name errorMsg st)
        as (extra & ->).
      exists (added ++ extra)%list. by rewrite Hst, app_assoc.
    - intros namespace name st (added & Hst).
      destruct (MarkMigrationSkipped_appends namespace name st) as (extra & ->).
      exists (added ++ extra)%list. by rewrite Hst, app_assoc.
    - eapply Forall_impl; [exact Hk|]. intros item Hitem migration st (added & Hst).
      exists added. by rewrite Hitem.
    - exists []. by rewrite app_nil_r. }
  exists added. split; [exact Hadded|].
  pose proof (observeDefault_journal formatRFC3339 items w Hk) as Hj.
  unfold logView in Hj. rewrite Hadded, map_app in Hj.
  by apply app_inv_head in Hj.
Qed.

End DefaultStoreFacts.

(** X10. The default store keeps log text for failures only: every record a
    run adds with [success = true] has empty logs (applied) or the logs
    "skip" (bootstrap), whatever the function logged. *)
Theorem X10_logs_are_kept_for_failures_only {App : Type}
    (formatRFC3339 : Z -> string) (items : list (MigrationItem (World App)))
    (w : World App) :
  Forall keepsLog items ->
  exists added,
    migration_logs (final (observeDefault formatRFC3339 items w))
    = (migration_logs w ++ added)%list
    /\ Forall (fun row =>
                 MigrationLog.Success row = true ->
                 MigrationLog.Logs row = EmptyString
                 \/ MigrationLog.Logs row = "skip") added.
Proof.
  intros Hk.
  destruct (observeDefault_appends formatRFC3339 items w Hk)
    as (added & Hrows & Hsum).
  exists added. split; [exact Hrows|].
  apply List.Forall_forall. intros row Hrow Hok.
  assert (In (summary row)
            (omap journal (trace (observeDefault formatRFC3339 items w)))) as Hin.
  { rewrite <- Hsum. by apply in_map. }
  apply list_elem_of_In, list_elem_of_omap in Hin as (ev & _ & Hj).
  unfold summary in Hj.
  destruct ev as [| | |? ? [?|]|? ? ? [?|]|? ? [?|]|]; simpl in Hj; try done;
    injection Hj as _ _ Hs Hl.
  - by left.
  - congruence.
  - by right.
Qed.

Lemma X10_witness :
  Forall keepsLog Demo.tenant
  /\ exists added,
       migration_logs (final (Demo.run Demo.tenant Demo.emptyWorld))
       = (migration_logs Demo.emptyWorld ++ added)%list
       /\ Forall (fun row =>
                    MigrationLog.Success row = true ->
                    MigrationLog.Logs row = EmptyString
                    \/ MigrationLog.Logs row = "skip") added.
Proof.
  assert (Forall keepsLog Demo.tenant) as Hk.
  { repeat constructor; intros migration w; reflexivity. }
  split; [exact Hk|].
  exact (X10_logs_are_kept_for_failures_only Demo.stamp Demo.tenant
           Demo.emptyWorld Hk).
Defined.



(** X12. A failure record never makes a key applied: whether
    [MarkMigrationFailed] writes its record or errors, the keys the default
    store reports as applied are the same before and after. *)
Theorem X12_failed_record_applies_nothing {App : Type} (w : World App)
    (namespace name errorMsg : string) :
  appliedKeys
    (migration_logs (snd (MarkMigrationFailed DefaultDatabaseMigrationStorage
                            namespace name errorMsg w)))
  = appliedKeys (migration_logs w).
Proof.
  unfold DefaultDatabaseMigrationStorage, MarkMigrationFailed, AutoMigrate,
    Create, bind, dbCall, gets, setRows, ret; simpl.
  destruct (nextFault (db_faults w)) as [[e|] rest]; simpl; [done|].
  destruct (nextFault rest) as [[e|] rest']; simpl; [done|].
  rewrite appliedKeys_app. unfold appliedKeys at 2. simpl. by rewrite app_nil_r.
Qed.



(** X14. Mutual exclusion on the Redis lock: in the state an instance is in
    right after [Lock] gave it the lock, a run of another instance does not
    get the lock; it makes the [Lock] call and nothing else, returns an error
    and leaves the table of records as it is. *)
Theorem X14_second_instance_is_locked_out {App : Type}
    (formatRFC3339 : Z -> string) (items : list (MigrationItem (World App)))
    (w : World App) :
  fst (Lock RedisLockProvider lockKey lockTimeout w) = (true, None) ->
  exists err,
    trace (observeDefault formatRFC3339 items
             (snd (Lock RedisLockProvider lockKey lockTimeout w)))
    = [CallLock lockKey lockTimeout false err]
    /\ result (observeDefault formatRFC3339 items
                 (snd (Lock RedisLockProvider lockKey lockTimeout w))) <> None
    /\ migration_logs
         (final (observeDefault formatRFC3339 items
                   (snd (Lock RedisLockProvider lockKey lockTimeout w))))
       = migration_logs w.
Proof.
  intros Hl.
  pose proof (Lock_held lockKey lockTimeout lockTimeout w Hl) as Hheld.
  destruct (observe_not_acquired (fun w => formatRFC3339 (unixNow w))
              {| storage := DefaultDatabaseMigrationStorage;
                 lockProvider := RedisLockProvider;
                 migrations := items |}
              (snd (Lock RedisLockProvider lockKey lockTimeout w)) Hheld)
    as (Hfinal & Htrace & Hres).
  cbn [lockProvider] in Hfinal, Htrace.
  eexists. split; [exact Htrace|]. split; [exact Hres|].
  unfold observeDefault. rewrite Hfinal. by rewrite !Lock_rows.
Qed.

Lemma X14_witness :
  fst (Lock RedisLockProvider lockKey lockTimeout Demo.deployed) = (true, None)
  /\ exists err,
       trace (Demo.run Demo.abc
                (snd (Lock RedisLockProvider lockKey lockTimeout Demo.deployed)))
       = [CallLock lockKey lockTimeout false err].
Proof.
  split; [vm_compute; reflexivity|].
  destruct (X14_second_instance_is_locked_out Demo.stamp Demo.abc Demo.deployed
              eq_refl) as (err & Htr & _).
  exists err. exact Htr.
Defined.

(** X15. The lock is given back: after a run of the default manager that
    acquired the lock and whose [Unlock] call returned nil, the lock key is
    not in Redis, so the next [Lock] acquires it when Redis answers. *)
Theorem X15_lock_is_released {App : Type}
    (formatRFC3339 : Z -> string) (items : list (MigrationItem (World App)))
    (w : World App) :
  fst (Lock RedisLockProvider lockKey lockTimeout w) = (true, None) ->
  last (trace (observeDefault formatRFC3339 items w))
  = Some (CallUnlock lockKey None) ->
  redis_keys (final (observeDefault formatRFC3339 items w)) !! lockKey = None
  /\ (fst (nextFault (redis_faults (final (observeDefault formatRFC3339 items w))))
      = None ->
      fst (Lock RedisLockProvider lockKey lockTimeout
             (final (observeDefault formatRFC3339 items w)))
      = (true, None)).
Proof.
  intros Hl Hlast.
  destruct (observe_ends_with_Unlock (fun w => formatRFC3339 (unixNow w))
              {| storage := DefaultDatabaseMigrationStorage;
                 lockProvider := RedisLockProvider;
                 migrations := items |} w Hl)
    as (w' & Hfinal & Hlast').
  cbn [lockProvider] in Hfinal, Hlast'.
  unfold observeDefault in *. rewrite Hlast' in Hlast.
  injection Hlast as Hu. rewrite Hfinal.
  pose proof (Unlock_releases lockKey w' Hu) as Hfree.
  split; [exact Hfree|]. intros Hf. by apply Lock_free.
Qed.

Lemma X15_witness :
  fst (Lock RedisLockProvider lockKey lockTimeout Demo.deployed) = (true, None)
  /\ last (trace (Demo.run Demo.abc Demo.deployed))
     = Some (CallUnlock lockKey None)
  /\ redis_keys (final (Demo.run Demo.abc Demo.deployed)) !! lockKey = None.
Proof.
  split; [vm_compute; reflexivity|]. split; [vm_compute; reflexivity|].
  exact (proj1 (X15_lock_is_released Demo.stamp Demo.abc Demo.deployed
                  eq_refl eq_refl)).
Defined.



(** ** The package-level entry points *)

(** X17. Once the package's [init] has created the manager, no sequence of
    [AddMigrate], [AddMigrateWithNamespace], [SetMigrationManager] and
    [RegisterAutoMigrateModels] calls panics or replaces the store or the lock
    provider: [SetMigrationManager] installs nothing when a manager exists.
    The registry grows by the registered items in call order ([AddMigrate]
    under namespace "app"), and so does the list of models. *)
Theorem X17_store_installed_by_init_is_kept {App Model : Type}
    (cs : list (Pkg.Call App Model)) (p : Pkg.State App Model)
    (m : MigrationManager (World App)) :
  Pkg.migrationManagerVar p = Some m ->
  exists m',
    Pkg.calls cs p
    = Some {| Pkg.migrationManagerVar := Some m';
              Pkg.needAutoMigrations :=
                Pkg.needAutoMigrations p ++ concat (map Pkg.modelsOf cs) |}
    /\ storage m' = storage m
    /\ lockProvider m' = lockProvider m
    /\ migrations m' = (migrations m ++ concat (map Pkg.itemsOf cs))%list.
Proof.
  revert p m. induction cs as [|c cs IH]; intros p m Hm; simpl.
  - exists m. rewrite !app_nil_r. destruct p; simpl in *. by subst.
  - destruct c as [namespace name fn|name fn|s|models]; simpl;
      unfold Pkg.AddMigrate, Pkg.AddMigrateWithNamespace,
        Pkg.SetMigrationManager; rewrite ?Hm.
    + destruct (IH {| Pkg.migrationManagerVar :=
                        Some (Register m namespace name fn);
                      Pkg.needAutoMigrations := Pkg.needAutoMigrations p |}
                  _ eq_refl)
        as (m' & -> & Hs & Hl & Hi).
      exists m'. simpl in *. rewrite Hi, <- app_assoc. done.
    + destruct (IH {| Pkg.migrationManagerVar := Some (Register m "app" name fn);
                      Pkg.needAutoMigrations := Pkg.needAutoMigrations p |}
                  _ eq_refl)
        as (m' & -> & Hs & Hl & Hi).
      exists m'. simpl in *. rewrite Hi, <- app_assoc. done.
    + destruct (IH p m Hm) as (m' & -> & Hs & Hl & Hi).
      by exists m'.
    + destruct (IH (Pkg.RegisterAutoMigrateModels models p) m Hm)
        as (m' & -> & Hs & Hl & Hi).
      exists m'. simpl. by rewrite <- app_assoc.
Qed.

Lemma X17_witness :
  Pkg.migrationManagerVar (Pkg.init (@Pkg.zero unit string))
  = Some (NewMigrationManager DefaultDatabaseMigrationStorage RedisLockProvider)
  /\ forall s, exists m',
       Pkg.calls (Sample.startup s) (Pkg.init Pkg.zero)
       = Some {| Pkg.migrationManagerVar := Some m';
                 Pkg.needAutoMigrations := ["migration_logs"] |}
       /\ storage m' = DefaultDatabaseMigrationStorage.
Proof.
  split; [reflexivity|]. intros s.
  destruct (X17_store_installed_by_init_is_kept (Sample.startup s)
              (Pkg.init Pkg.zero)
              (NewMigrationManager DefaultDatabaseMigrationStorage
                 RedisLockProvider) eq_refl)
    as (m' & Hcalls & Hs & _).
  exists m'. split; [exact Hcalls | exact Hs].
Defined.

Lemma autoMigrateAll_app {App Model : Type}
    (AutoMigrateModel : Model -> M (World App) (option error))
    (pre post : list Model) (w w1 : World App) :
  Pkg.autoMigrateAll AutoMigrateModel pre w = (None, w1) ->
  Pkg.autoMigrateAll AutoMigrateModel (pre ++ post) w
  = Pkg.autoMigrateAll AutoMigrateModel post w1.
Proof.
  revert w. induction pre as [|model pre IH]; intros w Hpre; simpl in *.
  - by injection Hpre as ->.
  - unfold bind in *.
    destruct (AutoMigrateModel model w) as [[e|] w0]; [done | by apply IH].
Qed.

(** X18. [Start] stops at the first registered model that fails to
    auto-migrate: it returns that error as it is, the models registered after
    it are not migrated, and the migrations are not run (the lock is not even
    asked for): the state [Start] leaves is the state the failed call left. *)
Theorem X18_Start_stops_at_first_failing_model {App Model : Type}
    (formatRFC3339 : Z -> string)
    (AutoMigrateModel : Model -> M (World App) (option error))
    (p : Pkg.State App Model) (pre post : list Model) (model : Model)
    (w w1 : World App) (e : error) :
  Pkg.needAutoMigrations p = (pre ++ model :: post)%list ->
  Pkg.autoMigrateAll AutoMigrateModel pre w = (None, w1) ->
  fst (AutoMigrateModel model w1) = Some e ->
  Pkg.Start formatRFC3339 AutoMigrateModel p w
  = (Pkg.Returned (Some e), snd (AutoMigrateModel model w1)).
Proof.
  intros Hmodels Hpre Hfail. unfold Pkg.Start, bind.
  rewrite Hmodels, (autoMigrateAll_app _ _ _ _ _ Hpre). simpl. unfold bind.
  destruct (AutoMigrateModel model w1) as [r w2]. simpl in *. by subst r.
Qed.

Lemma X18_witness :
  Pkg.needAutoMigrations Sample.loaded = ["accounts"; "sessions"; "audit"]
  /\ Pkg.Start Demo.stamp Sample.autoMigrate Sample.loaded Demo.deployed
     = (Pkg.Returned (Some (errorString "table sessions is locked")),
        Demo.deployed).
Proof.
  split; [reflexivity|].
  exact (X18_Start_stops_at_first_failing_model Demo.stamp Sample.autoMigrate
           Sample.loaded ["accounts"] ["audit"] "sessions"
           Demo.deployed Demo.deployed (errorString "table sessions is locked")
           eq_refl eq_refl eq_refl).
Defined.

(** ** Composite keys *)

Lemma append_colon_inv (s1 s2 t1 t2 : string) :
  strings.Contains s1 ":" = false ->
  strings.Contains s2 ":" = false ->
  s1 +:+ ":" +:+ t1 = s2 +:+ ":" +:+ t2 ->
  s1 = s2 /\ t1 = t2.
Proof.
  revert s2. induction s1 as [|c s1 IH]; intros [|d s2] H1 H2 Heq.
  - change (String ":" t1 = String ":" t2) in Heq. by injection Heq as ->.
  - change (String ":" t1 = String d (s2 +:+ ":" +:+ t2)) in Heq.
    injection Heq as <- _.
    apply Contains_colon_cons in H2 as [H2 _]. rewrite prefix_colon in H2.
    by destruct (Ascii.ascii_dec ":" ":").
  - change (String c (s1 +:+ ":" +:+ t1) = String ":" t2) in Heq.
    injection Heq as -> _.
    apply Contains_colon_cons in H1 as [H1 _]. rewrite prefix_colon in H1.
    by destruct (Ascii.ascii_dec ":" ":").
  - change (String c (s1 +:+ ":" +:+ t1) = String d (s2 +:+ ":" +:+ t2)) in Heq.
    injection Heq as -> Heq.
    apply Contains_colon_cons in H1 as [_ H1].
    apply Contains_colon_cons in H2 as [_ H2].
    destruct (IH s2 H1 H2 Heq) as [-> ->]. done.
Qed.

(** X19. Composite keys keep namespaces apart: for namespaces without a
    colon, two items have the same key only when they have the same namespace
    and the same name (the name may hold colons).  So a record for one
    namespace never counts for an item of another. *)
Theorem X19_compositeKey_injective (namespace1 name1 namespace2 name2 : string) :
  strings.Contains namespace1 ":" = false ->
  strings.Contains namespace2 ":" = false ->
  compositeKey namespace1 name1 = compositeKey namespace2 name2 ->
  namespace1 = namespace2 /\ name1 = name2.
Proof. unfold compositeKey. apply append_colon_inv. Qed.

Lemma X19_witness :
  strings.Contains "tenantX" ":" = false
  /\ compositeKey "tenantX" "v1:init" = compositeKey "tenantX" "v1:init"
  /\ "tenantX" = "tenantX" /\ "v1:init" = "v1:init".
Proof.
  split; [reflexivity|]. split; [reflexivity|].
  exact (X19_compositeKey_injective "tenantX" "v1:init" "tenantX" "v1:init"
           eq_refl eq_refl eq_refl).
Defined.

(** ** auto_drop.go *)

Section AutoDropFacts.

Import AutoDrop.

Implicit Types (w : World (gmap string (list string))) (dst : Model).












End AutoDropFacts.






(** ** The log of a context *)

Section SplitChar.

Variable c0 : ascii.

Lemma prefix_char (c : ascii) (s : string) :
  String.prefix (String c0 EmptyString) (String c s)
  = if Ascii.ascii_dec c0 c then true else false.
Proof. cbn [String.prefix]. by destruct (Ascii.ascii_dec c0 c), s. Qed.

Lemma Contains_char_cons (c : ascii) (s : string) :
  strings.Contains (String c s) (String c0 EmptyString) = false ->
  String.prefix (String c0 EmptyString) (String c s) = false
  /\ strings.Contains s (String c0 EmptyString) = false.
Proof. cbn [strings.Contains]. apply orb_false_elim. Qed.

Lemma splitFrom_char_plain (s : string) :
  strings.Contains s (String c0 EmptyString) = false ->
  forall cur, strings.splitFrom (String c0 EmptyString) 0 cur s = [cur +:+ s].
Proof.
  induction s as [|c s IH]; intros Hs cur.
  - cbn [strings.splitFrom]. by rewrite append_nil_r.
  - apply Contains_char_cons in Hs as [Hc Hs].
    cbn [strings.splitFrom].
    match goal with
    | |- (if ?b then _ else _) = _ => replace b with false by (symmetry; exact Hc)
    end.
    rewrite (IH Hs). by rewrite append_assoc.
Qed.

Lemma splitFrom_char_cut (a b : string) :
  strings.Contains a (String c0 EmptyString) = false ->
  forall cur,
    strings.splitFrom (String c0 EmptyString) 0 cur
      (a +:+ String c0 EmptyString +:+ b)
    = (cur +:+ a) :: strings.splitFrom (String c0 EmptyString) 0 EmptyString b.
Proof.
  induction a as [|c s IH]; intros Hs cur.
  - rewrite append_nil, append_nil_r.
    change (String c0 EmptyString +:+ b) with (String c0 b).
    cbn [strings.splitFrom]. rewrite prefix_char.
    by destruct (Ascii.ascii_dec c0 c0).
  - apply Contains_char_cons in Hs as [Hc Hs].
    rewrite append_cons. cbn [strings.splitFrom].
    match goal with
    | |- (if ?b then _ else _) = _ =>
        replace b with false
          by (symmetry; rewrite prefix_char in Hc |- *; exact Hc)
    end.
    rewrite (IH Hs). by rewrite append_assoc.
Qed.

(** Joining pieces that do not hold the separator and splitting the result
    gives the pieces back. *)
Lemma Split_Join (x : string) (xs : list string) :
  Forall (fun piece => strings.Contains piece (String c0 EmptyString) = false)
    (x :: xs) ->
  strings.Split (strings.Join (x :: xs) (String c0 EmptyString))
    (String c0 EmptyString)
  = x :: xs.
Proof.
  revert x. induction xs as [|y ys IH]; intros x Hall.
  - apply Forall_cons in Hall as [Hx _]. unfold strings.Split. simpl.
    by rewrite (splitFrom_char_plain x Hx).
  - apply Forall_cons in Hall as [Hx Hall]. unfold strings.Split.
    change (strings.Join (x :: y :: ys) (String c0 EmptyString))
      with (x +:+ String c0 EmptyString
            +:+ strings.Join (y :: ys) (String c0 EmptyString)).
    rewrite (splitFrom_char_cut _ _ Hx). rewrite append_nil. f_equal.
    by apply IH.
Qed.

End SplitChar.

(** X23. The log text of a context splits back into its lines: when the
    context holds at least one line and no line holds a newline,
    [strings.Split] of [LogString] on the newline is the list of lines as
    logged. *)
Theorem X23_LogString_splits_into_the_lines (m : Migration) :
  logStrings m <> [] ->
  Forall (fun line => strings.Contains line strings.nl = false) (logStrings m) ->
  strings.Split (LogString m) strings.nl = logStrings m.
Proof.
  intros Hne Hall. unfold LogString.
  destruct (logStrings m) as [|x xs]; [done|].
  by apply Split_Join.
Qed.

Lemma X23_witness :
  logStrings Demo.leftB <> []
  /\ strings.Split (LogString Demo.leftB) strings.nl = logStrings Demo.leftB.
Proof.
  assert (logStrings Demo.leftB <> []) as Hne by discriminate.
  split; [exact Hne|].
  apply (X23_LogString_splits_into_the_lines Demo.leftB Hne).
  repeat constructor.
Defined.

(** ** What a run leaves undone *)

Section Pending.

Context {St : Type}.
Implicit Types (item : MigrationItem St) (items : list (MigrationItem St)).
Implicit Types (a n : gmap string bool).

Lemma ExecTrace_runs_pending i items a evs :
  ExecTrace i items a evs None ->
  forall j item,
    i <= j -> items !! (j - i) = Some item ->
    index a (keyOf item) = false ->
    exists given left,
      In (CallFunc j (Namespace item) (Name item) given left None) evs.
Proof.
  intros H. remember (@None error) as r eqn:Hr in H.
  induction H as [i a|i item0 rest a evs r Ha H IH|i item0 rest a t lft e stored Ha
                 |i item0 rest a t lft e Ha|i item0 rest a t lft evs r Ha H IH];
    intros j item Hle Hitem Hidx; try done.
  - destruct (decide (j = i)) as [->|Hne].
    + rewrite Nat.sub_diag in Hitem. injection Hitem as ->. congruence.
    + apply (IH Hr j item); [lia| |done].
      replace (j - i) with (S (j - S i)) in Hitem by lia. done.
  - destruct (decide (j = i)) as [->|Hne].
    + rewrite Nat.sub_diag in Hitem. injection Hitem as ->.
      exists (started item t), lft. by left.
    + destruct (IH Hr j item) as (g & l' & Hin); [lia| |done|].
      * replace (j - i) with (S (j - S i)) in Hitem by lia. done.
      * exists g, l'. by do 2 right.
Qed.

Lemma BootTrace_skip_is_fresh items a n evs r a' :
  BootTrace items a n evs r a' ->
  forall namespace name err,
    In (CallMarkMigrationSkipped namespace name err) evs ->
    index a (compositeKey namespace name) = false
    /\ index n namespace = false.
Proof.
  induction 1 as [a n|item rest a n evs r a' Hf H IH
                 |item rest a n evs r a' Hf H IH|item rest a n e Hf];
    intros namespace name err Hin; simpl in Hin.
  - done.
  - eauto.
  - unfold fresh in Hf. apply andb_true_iff in Hf as [Hn Ha].
    apply negb_true_iff in Hn, Ha.
    destruct Hin as [[= <- <- <-]|Hin]; [done|].
    destruct (IH _ _ _ Hin) as [Ha' Hn']. split.
    + destruct (index a (compositeKey namespace name)) eqn:E; [|done].
      by rewrite (index_insert_keeps _ _ _ E) in Ha'.
    + destruct (index n namespace) eqn:E; [|done].
      by rewrite (index_insert_keeps _ _ _ E) in Hn'.
  - unfold fresh in Hf. apply andb_true_iff in Hf as [Hn Ha].
    apply negb_true_iff in Hn, Ha.
    by destruct Hin as [[= <- <- <-]|[]].
Qed.

End Pending.

(** X24. A run that returns nil has invoked every pending registration: each
    registered item whose key was neither reported applied by the store nor
    marked skipped by this run was invoked, at its position, and returned
    nil. *)
Theorem X24_nil_run_invoked_every_pending_item {St : Type}
    (nowRFC3339 : St -> string) (m : MigrationManager St) (st : St)
    (j : nat) (item : MigrationItem St) (names : list string) :
  result (observe nowRFC3339 m st) = None ->
  migrations m !! j = Some item ->
  In (CallGetAppliedMigrations names None) (trace (observe nowRFC3339 m st)) ->
  ~ In (compositeKey (Namespace item) (Name item)) names ->
  (forall namespace name,
     In (CallMarkMigrationSkipped namespace name None)
       (trace (observe nowRFC3339 m st)) ->
     compositeKey namespace name <> compositeKey (Namespace item) (Name item)) ->
  exists given left,
    In (CallFunc j (Namespace item) (Name item) given left None)
      (trace (observe nowRFC3339 m st)).
Proof.
  intros Hres Hitem Hget Hnames Hskip.
  pose proof (observe_RunTrace nowRFC3339 m st) as Hrun.
  destruct (observe_spec nowRFC3339 m st) as (rest & Heq & _ & _).
  unfold trace, result in *. rewrite Heq in Hres, Hget, Hskip, Hrun |- *.
  cbn [fst snd] in Hres, Hget, Hskip, Hrun |- *. rewrite Hres in Hrun.
  apply RunTrace_cases in Hrun
    as [[_ ?]|[(? & ? & ? & _ & ?)|[(? & ? & ? & ? & ? & _ & _ & [=])
       |(names' & evs1 & a' & evs2 & u & -> & Hboot & Hexec)]]]; try done.
  assert (names' = names) as ->.
  { destruct Hget as [[=]|[[=]|Hget]]; [done|].
    apply in_app_or in Hget as [Hget|Hget].
    { by destruct (BootTrace_only_skips _ _ _ _ _ _ Hboot _ Hget)
        as (? & ? & ? & [=]). }
    apply in_app_or in Hget as [Hget|[[=]|[]]].
    by apply (ExecTrace_no_history _ _ _ _ _ Hexec) in Hget. }
  assert (index a' (keyOf item) = false) as Hidx.
  { destruct (index a' (keyOf item)) eqn:E; [|done]. exfalso.
    destruct (BootTrace_origin _ _ _ _ _ _ Hboot _ E)
      as [Hn|(namespace & name & Hkey & Hin)].
    - by apply appliedSetOf_spec in Hn.
    - apply (Hskip namespace name); [|done].
      do 2 right. apply in_or_app. by left. }
  destruct (ExecTrace_runs_pending _ _ _ _ Hexec j item) as (g & l' & Hin);
    [lia|by rewrite Nat.sub_0_r|done|].
  exists g, l'. do 2 right. apply in_or_app. right. apply in_or_app. by left.
Qed.

Lemma X24_witness :
  result (Demo.run Sample.fixedB Demo.deployed) = None
  /\ exists given left,
       In (CallFunc 1 "app" "B" given left None)
         (trace (Demo.run Sample.fixedB Demo.deployed)).
Proof.
  split; [vm_compute; reflexivity|].
  apply (X24_nil_run_invoked_every_pending_item Demo.now
           (Demo.manager Sample.fixedB) Demo.deployed 1
           (Demo.item "app" "B" Demo.succeed) ["app:init"]).
  - vm_compute. reflexivity.
  - reflexivity.
  - vm_compute. right. left. reflexivity.
  - vm_compute. intros [H|[]]. discriminate.
  - intros namespace name Hin. exfalso. vm_compute in Hin.
    repeat (destruct Hin as [Hin|Hin]; [discriminate|]). exact Hin.
Defined.

(** X25. The bootstrap loop writes a skip record only for a key that the
    history just loaded does not hold, and only in a namespace that this
    history did not flag as having records: an applied key is never skipped
    again. *)
Theorem X25_skip_only_for_keys_without_history {St : Type}
    (nowRFC3339 : St -> string) (m : MigrationManager St) (st : St)
    (namespace name : string) (err : option error) (names : list string) :
  In (CallMarkMigrationSkipped namespace name err)
    (trace (observe nowRFC3339 m st)) ->
  In (CallGetAppliedMigrations names None) (trace (observe nowRFC3339 m st)) ->
  index (appliedSetOf names) (compositeKey namespace name) = false
  /\ index (namespaceHasRecordsOf names) namespace = false.
Proof.
  intros Hskip Hget.
  pose proof (observe_RunTrace nowRFC3339 m st) as Hrun.
  destruct (observe_spec nowRFC3339 m st) as (rest & Heq & _ & _).
  unfold trace, result in *. rewrite Heq in Hskip, Hget, Hrun.
  cbn [fst snd] in Hskip, Hget, Hrun.
  assert (forall items names' evs r a' more,
            BootTrace (St := St) items (appliedSetOf names')
              (namespaceHasRecordsOf names') evs r a' ->
            (forall ev, In ev more -> isSkip ev = false) ->
            (forall names0 e0, ~ In (CallGetAppliedMigrations names0 e0) more) ->
            In (CallMarkMigrationSkipped namespace name err)
              (CallGetAppliedMigrations names' None :: evs ++ more) ->
            In (CallGetAppliedMigrations names None)
              (CallGetAppliedMigrations names' None :: evs ++ more) ->
            index (appliedSetOf names) (compositeKey namespace name) = false
            /\ index (namespaceHasRecordsOf names) namespace = false) as Hcore.
  { intros items names' evs r a' more Hboot Hmore Hnoget Hs Hg.
    assert (names' = names) as ->.
    { destruct Hg as [[=]|Hg]; [done|].
      apply in_app_or in Hg as [Hg|Hg].
      - by destruct (BootTrace_only_skips _ _ _ _ _ _ Hboot _ Hg)
          as (? & ? & ? & [=]).
      - by apply Hnoget in Hg. }
    destruct Hs as [[=]|Hs]. apply in_app_or in Hs as [Hs|Hs].
    - by eapply BootTrace_skip_is_fresh.
    - by apply Hmore in Hs. }
  apply RunTrace_cases in Hrun
    as [[-> _]|[(names' & e' & u & -> & _)
       |[(names' & evs & e' & a' & u & -> & Hboot & _)
        |(names' & evs1 & a' & evs2 & u & -> & Hboot & Hexec)]]].
  - by destruct Hskip as [[=]|[]].
  - by destruct Hskip as [[=]|[[=]|[[=]|[]]]].
  - destruct Hskip as [[=]|Hskip]. destruct Hget as [[=]|Hget].
    eapply Hcore; [exact Hboot| | |exact Hskip|exact Hget].
    + by intros ev [<-|[]].
    + by intros ? ? [[=]|[]].
  - destruct Hskip as [[=]|Hskip]. destruct Hget as [[=]|Hget].
    eapply Hcore; [exact Hboot| | |exact Hskip|exact Hget].
    + intros ev Hev. apply in_app_or in Hev as [Hev|[<-|[]]]; [|done].
      by apply (ExecTrace_no_skip _ _ _ _ _ Hexec).
    + intros names0 e0 Hev. apply in_app_or in Hev as [Hev|[[=]|[]]].
      by apply (ExecTrace_no_history _ _ _ _ _ Hexec) in Hev.
Qed.

Lemma X25_witness :
  In (CallMarkMigrationSkipped "tenantX" "m1" None)
    (trace (Demo.run Demo.tenant Demo.emptyWorld))
  /\ In (CallGetAppliedMigrations [] None)
       (trace (Demo.run Demo.tenant Demo.emptyWorld))
  /\ index (appliedSetOf []) (compositeKey "tenantX" "m1") = false.
Proof.
  assert (In (CallMarkMigrationSkipped "tenantX" "m1" None)
            (trace (Demo.run Demo.tenant Demo.emptyWorld))) as Hskip.
  { vm_compute. do 2 right. left. reflexivity. }
  assert (In (CallGetAppliedMigrations [] None)
            (trace (Demo.run Demo.tenant Demo.emptyWorld))) as Hget.
  { vm_compute. right. left. reflexivity. }
  split; [exact Hskip|]. split; [exact Hget|].
  exact (proj1 (X25_skip_only_for_keys_without_history Demo.now
                  (Demo.manager Demo.tenant) Demo.emptyWorld "tenantX" "m1"
                  None [] Hskip Hget)).
Defined.
